(** * cloud_agent_example.py: the [CloudAgentDelegate] class

    A shallow embedding of [src/cloud_agent_example.py].  The Python object
    [self] and the numpy arrays it handles live in an explicit world
    (the delegate's two fields, a heap of arrays addressed by reference,
    and the trace of console lines and library calls).  Methods are
    computations in a state-and-exception monad over that world.

    OpenCV is not part of the repository: the three functions the class
    calls ([cv2.transform], [cv2.resize], [cv2.GaussianBlur]) are an
    interface, the class [Cv2]; the shape contracts of the OpenCV reference
    are a second class, [Cv2Laws], and the rounding of [cv2.transform] on
    8-bit arrays a third, [Cv2Rounds], each asked for only where a theorem
    needs it.  Every theorem holds for any implementation of the
    interface; [ref_cv2] is a small executable one. *)

From Stdlib Require Import ZArith QArith Qabs Ascii String List Lia.
From stdpp Require Import base gmap strings list.

Local Open Scope Z_scope.

(** ** Arrays *)

(** One pixel of an [H x W x 3] array: its three channel samples.  Samples
    are integers; dtype [uint8] is the range predicate [u8]. *)
Record pixel := Px { ch0 : Z; ch1 : Z; ch2 : Z }.

(** an [np.ndarray] of shape [(h, w, 3)]: rows of pixels *)
Abbreviation ndarray := (list (list pixel)).

Definition u8 (x : Z) : Prop := 0 ≤ x ≤ 255.

Definition u8_pixel (p : pixel) : Prop := u8 (ch0 p) ∧ u8 (ch1 p) ∧ u8 (ch2 p).

Definition u8_image (img : ndarray) : Prop := Forall (Forall u8_pixel) img.

(** [shape img h w]: [img.shape == (h, w, 3)]. *)
Definition shape (img : ndarray) (h w : nat) : Prop :=
  length img = h ∧ Forall (λ r, length r = w) img.

Definition px_map (f : Z → Z) (p : pixel) : pixel :=
  Px (f (ch0 p)) (f (ch1 p)) (f (ch2 p)).

Definition image_map (f : pixel → pixel) (img : ndarray) : ndarray :=
  map (map f) img.

(** [np.zeros((h, w, 3)); image[:] = p] *)
Definition full (h w : nat) (p : pixel) : ndarray := repeat (repeat p w) h.

(** ** Python values passed through [**kwargs] *)

#[warnings="-register-all"]
Inductive pyobj :=
| PyNone
| PyInt (z : Z)
| PyStr (s : string)
| PyTuple (xs : list pyobj).

(** ** The OpenCV interface *)

Definition row := (Q * Q * Q)%type.
Definition mat3 := (row * row * row)%type.

Class Cv2 := {
  (** one output sample of [cv2.transform]: a matrix row applied to the
      channel triple of a pixel, in the library's saturating arithmetic *)
  cv_dot : row → pixel → Z;
  (** [cv2.resize(src, dsize)]; [None] when the binding raises *)
  cv_resize : ndarray → pyobj → option ndarray;
  (** [cv2.GaussianBlur(src, ksize, sigmaX)]; [None] when the binding raises *)
  cv_GaussianBlur : ndarray → pyobj → Q → option ndarray
}.

(** The shape contracts of the OpenCV reference, for non-empty 8-bit arrays. *)
Class Cv2Laws `{Cv2} : Prop := {
  (** [dsize] is [(width, height)]; the result has [height] rows *)
  cv_resize_shape (img : ndarray) (h w : nat) (W H : Z) :
    shape img h w → u8_image img → (0 < h)%nat → (0 < w)%nat →
    0 < W → 0 < H →
    ∃ out, cv_resize img (PyTuple [PyInt W; PyInt H]) = Some out
           ∧ shape out (Z.to_nat H) (Z.to_nat W);
  (** an odd positive aperture with [sigmaX = 0] is accepted and the
      result has the size of the source *)
  cv_GaussianBlur_shape (img : ndarray) (h w : nat) (K : Z) :
    shape img h w → u8_image img → (0 < h)%nat → (0 < w)%nat →
    0 < K → Z.odd K = true →
    ∃ out, cv_GaussianBlur img (PyTuple [PyInt K; PyInt K]) 0%Q = Some out
           ∧ shape out h w
}.

(** [dst(I) = m . src(I)], channel [i] of the result from row [i] of [m] *)
Definition cv_matvec `{Cv2} (m : mat3) (p : pixel) : pixel :=
  let '(r0, r1, r2) := m in Px (cv_dot r0 p) (cv_dot r1 p) (cv_dot r2 p).

(** ** The world *)

Abbreviation loc := positive.

Record CloudAgentDelegate := Delegate {
  endpoint : string;
  connected : bool
}.

Inductive event :=
| Print (line : string)
| CvTransform (src : loc) (m : mat3)
| CvResize (src : loc) (dsize : pyobj)
| CvGaussianBlur (src : loc) (ksize : pyobj) (sigmaX : Q)
| NpClip (a : loc) (a_min a_max : Z)
| NpAstypeUint8 (a : loc).

Record world := World {
  self : CloudAgentDelegate;
  heap : gmap loc ndarray;
  trace : list event
}.

Inductive exn :=
| RuntimeError (msg : string)
| CvError.

Inductive result (A : Type) :=
| Ok (a : A)
| Raise (e : exn).
Arguments Ok {A} a.
Arguments Raise {A} e.

(** ** The monad of methods *)

Definition M (A : Type) : Type := world → result A * world.

Definition ret {A} (a : A) : M A := λ σ, (Ok a, σ).

Definition bind {A B} (m : M A) (k : A → M B) : M B :=
  λ σ, match m σ with
       | (Ok a, σ') => k a σ'
       | (Raise e, σ') => (Raise e, σ')
       end.

#[local] Instance M_ret : MRet M := @ret.
#[local] Instance M_bind : MBind M := λ A B k m, bind m k.

Definition raise {A} (e : exn) : M A := λ σ, (Raise e, σ).

Definition get_self : M CloudAgentDelegate := λ σ, (Ok (self σ), σ).

Definition set_connected (b : bool) : M unit :=
  λ σ, (Ok (), World (Delegate (endpoint (self σ)) b) (heap σ) (trace σ)).

Definition emit (e : event) : M unit :=
  λ σ, (Ok (), World (self σ) (heap σ) (trace σ ++ [e])).

Definition print (line : string) : M unit := emit (Print line).

(** a reference that is not in the heap cannot be built in Python; the
    model lets the library reject it *)
Definition read (l : loc) : M ndarray :=
  λ σ, match heap σ !! l with
       | Some a => (Ok a, σ)
       | None => (Raise CvError, σ)
       end.

Definition alloc (a : ndarray) : M loc :=
  λ σ, let l := fresh (dom (heap σ)) in
       (Ok l, World (self σ) (<[l := a]> (heap σ)) (trace σ)).

(** ** numpy and OpenCV calls *)

(** [np.clip(x, a_min, a_max)] on one sample: [minimum(a_max, maximum(x, a_min))] *)
Definition clip (a_min a_max x : Z) : Z := Z.min a_max (Z.max x a_min).

(** [.astype(np.uint8)] on one integer sample keeps the low eight bits *)
Definition astype_uint8 (x : Z) : Z := x mod 256.

Section Methods.
Context `{Cv2}.

Definition cv2_transform (src : loc) (m : mat3) : M loc :=
  emit (CvTransform src m);;
  a ← read src;
  alloc (image_map (cv_matvec m) a).

Definition cv2_resize (src : loc) (dsize : pyobj) : M loc :=
  emit (CvResize src dsize);;
  a ← read src;
  match cv_resize a dsize with
  | Some out => alloc out
  | None => raise CvError
  end.

Definition cv2_GaussianBlur (src : loc) (ksize : pyobj) (sigmaX : Q) : M loc :=
  emit (CvGaussianBlur src ksize sigmaX);;
  a ← read src;
  match cv_GaussianBlur a ksize sigmaX with
  | Some out => alloc out
  | None => raise CvError
  end.

Definition np_clip (a : loc) (a_min a_max : Z) : M loc :=
  emit (NpClip a a_min a_max);;
  x ← read a;
  alloc (image_map (px_map (clip a_min a_max)) x).

Definition np_astype_uint8 (a : loc) : M loc :=
  emit (NpAstypeUint8 a);;
  x ← read a;
  alloc (image_map (px_map astype_uint8) x).

(** ** The class *)

Definition default_endpoint : string := "http://localhost:8000".

(** [__init__]: [endpoint or "http://localhost:8000"] takes the default for
    [None] and for the empty string *)
Definition __init__ (endpoint : option string) : CloudAgentDelegate :=
  Delegate
    (match endpoint with
     | Some s => if decide (s = EmptyString) then default_endpoint else s
     | None => default_endpoint
     end)
    false.

Definition connect : M bool :=
  d ← get_self;
  print ("Connecting to cloud agent at " +:+ endpoint d +:+ "...");;
  set_connected true;;
  d' ← get_self;
  mret (connected d').

Definition kernel : mat3 :=
  ((0.272, 0.534, 0.131),
   (0.349, 0.686, 0.168),
   (0.393, 0.769, 0.189))%Q.

Definition _apply_sepia_local (image : loc) : M loc :=
  sepia ← cv2_transform image kernel;
  clipped ← np_clip sepia 0 255;
  np_astype_uint8 clipped.

Definition not_connected : exn :=
  RuntimeError "Not connected to cloud agent. Call connect() first.".

Definition process_image_remote
    (image : loc) (operation : string) (kwargs : gmap string pyobj) : M loc :=
  d ← get_self;
  if negb (connected d) then raise not_connected
  else
    print ("Delegating " +:+ operation +:+ " operation to cloud agent...");;
    if decide (operation = "sepia") then
      _apply_sepia_local image
    else if decide (operation = "resize") then
      let target_size := default (PyTuple [PyInt 800; PyInt 600]) (kwargs !! "size") in
      cv2_resize image target_size
    else if decide (operation = "blur") then
      let kernel_size := default (PyInt 15) (kwargs !! "kernel_size") in
      cv2_GaussianBlur image (PyTuple [kernel_size; kernel_size]) 0%Q
    else
      mret image.

Definition disconnect : M unit :=
  print "Disconnecting from cloud agent...";;
  set_connected false.

(** ** The demo *)

(** [np.zeros((h, w, 3), dtype=np.uint8)] *)
Definition np_zeros (h w : nat) : M loc := alloc (full h w (Px 0 0 0)).

(** [a[:] = p] writes into the array [a] refers to *)
Definition fill (a : loc) (p : pixel) : M unit :=
  λ σ, match heap σ !! a with
       | Some x => (Ok (), World (self σ) (<[a := image_map (λ _, p) x]> (heap σ)) (trace σ))
       | None => (Raise CvError, σ)
       end.

(** [delegate = CloudAgentDelegate(endpoint)] *)
Definition new_delegate (endpoint : option string) : M unit :=
  λ σ, (Ok (), World (__init__ endpoint) (heap σ) (trace σ)).

(** [try: body finally: final] *)
Definition try_finally {A} (body : M A) (final : M unit) : M A :=
  λ σ, match body σ with
       | (r, σ') =>
           match final σ' with
           | (Ok _, σ'') => (r, σ'')
           | (Raise e, σ'') => (Raise e, σ'')
           end
       end.

Definition main : M unit :=
  image ← np_zeros 400 600;
  fill image (Px 100 150 200);;
  new_delegate None;;
  connect;;
  try_finally
    (sepia_image ← process_image_remote image "sepia" ∅;
     print "✓ Sepia effect applied via cloud agent";;
     blurred ← process_image_remote image "blur" {["kernel_size" := PyInt 21]};
     print "✓ Blur applied via cloud agent";;
     resized ← process_image_remote image "resize"
                 {["size" := PyTuple [PyInt 300; PyInt 200]]};
     print "✓ Resize applied via cloud agent";;
     print (String "010"%char "All operations delegated successfully!"))
    disconnect.

End Methods.

(** ** A reference implementation of the interface

    Exact rational arithmetic with OpenCV's rounding for [cv2.transform],
    nearest-neighbour sampling for [cv2.resize], and a mean filter with
    replicated borders standing in for the Gaussian weights.  It shows that
    the laws of [Cv2] can be met and lets the methods be run. *)

Module Ref.

(** [cvRound]: nearest integer, ties to even *)
Definition round_half_even (q : Q) : Z :=
  let n := Qnum q in
  let d := Z.pos (Qden q) in
  let f := n `div` d in
  let r2 := 2 * (n - f * d) in
  if r2 <? d then f
  else if d <? r2 then f + 1
  else if Z.even f then f else f + 1.

(** [saturate_cast<uchar>] *)
Definition saturate_uint8 (z : Z) : Z := Z.max 0 (Z.min 255 z).

Definition dot (r : row) (p : pixel) : Z :=
  let '(a, b, c) := r in
  saturate_uint8
    (round_half_even
       (a * inject_Z (ch0 p) + b * inject_Z (ch1 p) + c * inject_Z (ch2 p))%Q).

Definition nonempty (img : ndarray) : bool :=
  match img with
  | (_ :: _) :: _ => true
  | _ => false
  end.

Definition width (img : ndarray) : nat := length (hd [] img).

Definition at_ (img : ndarray) (i j : nat) : pixel :=
  nth j (nth i img []) (Px 0 0 0).

Definition nearest (img : ndarray) (W H : nat) : ndarray :=
  let h := length img in
  let w := width img in
  map (λ i, map (λ j, at_ img (i * h / H) (j * w / W)) (seq 0 W)) (seq 0 H).

Definition resize (img : ndarray) (dsize : pyobj) : option ndarray :=
  match dsize with
  | PyTuple [PyInt W; PyInt H] =>
      if (0 <? W) && (0 <? H) && nonempty img
      then Some (nearest img (Z.to_nat W) (Z.to_nat H))
      else None
  | _ => None
  end.

(** index clamped to [0 .. n-1] (replicated border) *)
Definition clamp_index (n : nat) (i : Z) : nat :=
  Z.to_nat (Z.max 0 (Z.min (Z.of_nat n - 1) i)).

Definition offsets (k : Z) : list Z :=
  map (λ d, Z.of_nat d - k `div` 2) (seq 0 (Z.to_nat k)).

Definition px_add (p q : pixel) : pixel :=
  Px (ch0 p + ch0 q) (ch1 p + ch1 q) (ch2 p + ch2 q).

Definition window_sum (img : ndarray) (kw kh : Z) (i j : nat) : pixel :=
  foldr px_add (Px 0 0 0)
    (di ← offsets kh;
     dj ← offsets kw;
     [at_ img (clamp_index (length img) (Z.of_nat i + di))
              (clamp_index (width img) (Z.of_nat j + dj))]).

Definition mean_filter (img : ndarray) (kw kh : Z) : ndarray :=
  map (λ i, map (λ j, px_map (λ s, s `div` (kw * kh)) (window_sum img kw kh i j))
              (seq 0 (width img)))
      (seq 0 (length img)).

Definition GaussianBlur (img : ndarray) (ksize : pyobj) (sigmaX : Q) : option ndarray :=
  match ksize with
  | PyTuple [PyInt kw; PyInt kh] =>
      if (0 <? kw) && Z.odd kw && (0 <? kh) && Z.odd kh && nonempty img
      then Some (mean_filter img kw kh)
      else None
  | _ => None
  end.

End Ref.

Definition ref_cv2 : Cv2 := {|
  cv_dot := Ref.dot;
  cv_resize := Ref.resize;
  cv_GaussianBlur := Ref.GaussianBlur
|}.

(** ** The arithmetic of [cv2.transform] on 8-bit arrays

    [cv2.transform] returns an array of the depth of its source.  For an
    8-bit source the OpenCV reference gives each sample as
    [saturate_cast<uchar>(r) = min(max(round(r), 0), 255)] of the sum of
    products [r]: the sum is rounded to the nearest integer and saturated,
    it is not truncated.  [Cv2Rounds] is that contract; the sum is taken
    exactly, over the decimal literals of the matrix. *)





(** *** The recipe in the words of the specification

    "applies a fixed 3x3 linear color-mixing matrix to every pixel's channel
    triple; clamps each resulting channel to [0, 255] and truncates to an
    8-bit integer": product, clamp, truncate. *)





(** ** Worlds, frames and outcomes

    The vocabulary of the theorems below. *)

(** the world after a library call that read [src] and returned [out] *)
Definition after_call (e : event) (out : ndarray) (σ : world) : world :=
  World (self σ) (<[fresh (dom (heap σ)) := out]> (heap σ)) (trace σ ++ [e]).

(** the world once the dispatch line has been printed *)
Definition delegating (operation : string) (σ : world) : world :=
  World (self σ) (heap σ)
    (trace σ ++ [Print ("Delegating " +:+ operation +:+ " operation to cloud agent...")]).

(** [extends σ σ']: the delegate is the same, every array of [σ] is still
    there with the same contents, and the trace has only grown. *)
Definition extends (σ σ' : world) : Prop :=
  self σ' = self σ ∧ heap σ ⊆ heap σ' ∧ trace σ `prefix_of` trace σ'.

Definition framed {A} (m : M A) : Prop := ∀ σ, extends σ (m σ).2.

Section Values.
Context `{Cv2}.

(** one pixel through [_apply_sepia_local]: transform, clip, cast *)
Definition sepia_pixel (p : pixel) : pixel :=
  px_map astype_uint8 (px_map (clip 0 255) (cv_matvec kernel p)).

(** the world [_apply_sepia_local] leaves, and the reference it returns *)
Definition sepia_world (image : loc) (img : ndarray) (σ : world) : world :=
  let a1 := image_map (cv_matvec kernel) img in
  let σ1 := after_call (CvTransform image kernel) a1 σ in
  let a2 := image_map (px_map (clip 0 255)) a1 in
  let σ2 := after_call (NpClip (fresh (dom (heap σ))) 0 255) a2 σ1 in
  let a3 := image_map (px_map astype_uint8) a2 in
  after_call (NpAstypeUint8 (fresh (dom (heap σ1)))) a3 σ2.

Definition sepia_loc (image : loc) (img : ndarray) (σ : world) : loc :=
  let a1 := image_map (cv_matvec kernel) img in
  let σ1 := after_call (CvTransform image kernel) a1 σ in
  let a2 := image_map (px_map (clip 0 255)) a1 in
  let σ2 := after_call (NpClip (fresh (dom (heap σ))) 0 255) a2 σ1 in
  fresh (dom (heap σ2)).

(** [process_value] is the array a call returns (or the exception it
    raises) as a function of the flag, of the contents of the input array
    and of the request; [outcome] reads the same off a run. *)
Definition process_value
    (c : bool) (img : ndarray) (operation : string) (kwargs : gmap string pyobj)
    : result ndarray :=
  if negb c then Raise not_connected
  else if decide (operation = "sepia") then Ok (image_map sepia_pixel img)
  else if decide (operation = "resize") then
    match cv_resize img (default (PyTuple [PyInt 800; PyInt 600]) (kwargs !! "size")) with
    | Some out => Ok out
    | None => Raise CvError
    end
  else if decide (operation = "blur") then
    let kernel_size := default (PyInt 15) (kwargs !! "kernel_size") in
    match cv_GaussianBlur img (PyTuple [kernel_size; kernel_size]) 0%Q with
    | Some out => Ok out
    | None => Raise CvError
    end
  else Ok img.

End Values.

Definition outcome (r : result loc * world) : option (result ndarray) :=
  match r.1 with
  | Ok l => Ok <$> heap r.2 !! l
  | Raise e => Some (Raise e)
  end.

(** every aperture handed to [cv2.GaussianBlur] is a square odd positive one *)
Definition blur_aperture_resolved (tr : list event) : Prop :=
  ∀ src ksize sigmaX,
    CvGaussianBlur src ksize sigmaX ∈ tr →
    ∃ k, ksize = PyTuple [PyInt k; PyInt k] ∧ 0 < k ∧ Z.odd k = true.

(** [m] returns from [σ], and the value and world it returns satisfy [Q] *)
Definition returns {A} (m : M A) (σ : world) (Q : A → world → Prop) : Prop :=
  ∃ a σ', m σ = (Ok a, σ') ∧ Q a σ'.

(** what the body of the [try] keeps true: the delegate is connected and
    the demo's array is where it was put *)
Definition demo_inv (image : loc) (σ : world) : Prop :=
  self σ = Delegate default_endpoint true
  ∧ heap σ !! image = Some (full 400 600 (Px 100 150 200)).

(** *** Worlds to run the methods on *)

Definition demo_image : ndarray :=
  [[Px 100 150 200; Px 0 0 0]; [Px 255 255 255; Px 1 2 3]].

(** a fresh delegate next to one array at reference [1] *)
Definition fresh_world : world :=
  World (__init__ None) {[1%positive := demo_image]} [].

(** the same after [delegate.connect()] *)
Definition connected_world : world := (connect fresh_world).2.


(** a second delegate, with another endpoint, the array at another
    reference, and a longer trace *)
Definition other_world : world :=
  (connect (World (__init__ (Some "http://cloud:9000"))
              {[1%positive := full 1 1 (Px 0 0 0); 5%positive := demo_image]}
              [Print "earlier"])).2.

(** *** Clients of the class *)

(** the console: the lines printed, oldest first *)
Definition stdout (tr : list event) : list string :=
  omap (λ e, match e with Print line => Some line | _ => None end) tr.

(** [silent m]: [m] prints nothing *)
Definition silent {A} (m : M A) : Prop :=
  ∀ σ, stdout (trace (m σ).2) = stdout (trace σ).

(** one method call made by a client that goes on after an exception *)
Inductive call :=
| Connect
| Disconnect
| Process (image : loc) (operation : string) (kwargs : gmap string pyobj).

Definition do_call `{Cv2} (c : call) (σ : world) : world :=
  match c with
  | Connect => (connect σ).2
  | Disconnect => (disconnect σ).2
  | Process image operation kwargs =>
      (process_image_remote image operation kwargs σ).2
  end.

Definition do_calls `{Cv2} (cs : list call) (σ : world) : world :=
  foldl (λ σ c, do_call c σ) σ cs.

(** the flag as the last [Connect] or [Disconnect] of [cs] leaves it *)
Definition flag_after (cs : list call) (b : bool) : bool :=
  foldl (λ b c, match c with
                | Connect => true
                | Disconnect => false
                | Process _ _ _ => b
                end) b cs.

(** the body of the [try] in [main] *)
Definition main_body `{Cv2} (image : loc) : M unit :=
  sepia_image ← process_image_remote image "sepia" ∅;
  print "✓ Sepia effect applied via cloud agent";;
  blurred ← process_image_remote image "blur" {["kernel_size" := PyInt 21]};
  print "✓ Blur applied via cloud agent";;
  resized ← process_image_remote image "resize"
              {["size" := PyTuple [PyInt 300; PyInt 200]]};
  print "✓ Resize applied via cloud agent";;
  print (String "010"%char "All operations delegated successfully!").

(** the world in which [main] enters the [try] *)
Definition main_entry (σ : world) : world :=
  World (Delegate default_endpoint true)
    (<[fresh (dom (heap σ)) := full 400 600 (Px 100 150 200)]> (heap σ))
    (trace σ ++ [Print "Connecting to cloud agent at http://localhost:8000..."]).

(** * Lemmas *)

(** ** The reference implementation meets the contracts *)

Lemma shape_table {A} (f : nat → nat → A) (W H : nat) :
  length (map (λ i, map (f i) (seq 0 W)) (seq 0 H)) = H
  ∧ Forall (λ r, length r = W) (map (λ i, map (f i) (seq 0 W)) (seq 0 H)).
Proof.
  split.
  - by rewrite length_map, length_seq.
  - apply Forall_forall. intros r Hr.
    apply list_elem_of_In, in_map_iff in Hr as (i & <- & _).
    by rewrite length_map, length_seq.
Qed.

Lemma shape_nonempty (img : ndarray) (h w : nat) :
  shape img h w → (0 < h)%nat → (0 < w)%nat →
  Ref.nonempty img = true ∧ Ref.width img = w.
Proof.
  intros [Hlen Hrows] Hh Hw.
  destruct img as [|r img]; simpl in *; [lia|].
  apply Forall_cons in Hrows as [Hr _].
  unfold Ref.width. simpl. split; [|done].
  destruct r; simpl in *; [lia|done].
Qed.

Lemma ref_resize_shape (img : ndarray) (h w : nat) (W H : Z) :
  shape img h w → u8_image img → (0 < h)%nat → (0 < w)%nat →
  0 < W → 0 < H →
  ∃ out, Ref.resize img (PyTuple [PyInt W; PyInt H]) = Some out
         ∧ shape out (Z.to_nat H) (Z.to_nat W).
Proof.
  intros Hs _ Hh Hw HW HH.
  destruct (shape_nonempty img h w Hs Hh Hw) as [Hne _].
  exists (Ref.nearest img (Z.to_nat W) (Z.to_nat H)). split.
  - unfold Ref.resize. rewrite Hne.
    destruct (Z.ltb_spec 0 W); [|lia]. destruct (Z.ltb_spec 0 H); [|lia]. done.
  - apply shape_table.
Qed.

Lemma ref_GaussianBlur_shape (img : ndarray) (h w : nat) (K : Z) :
  shape img h w → u8_image img → (0 < h)%nat → (0 < w)%nat →
  0 < K → Z.odd K = true →
  ∃ out, Ref.GaussianBlur img (PyTuple [PyInt K; PyInt K]) 0%Q = Some out
         ∧ shape out h w.
Proof.
  intros Hs _ Hh Hw HK Hodd.
  destruct (shape_nonempty img h w Hs Hh Hw) as [Hne Hwd].
  exists (Ref.mean_filter img K K). split.
  - unfold Ref.GaussianBlur. rewrite Hne, Hodd.
    destruct (Z.ltb_spec 0 K); [|lia]. done.
  - destruct Hs as [Hlen _]. unfold Ref.mean_filter. rewrite Hwd, Hlen.
    apply shape_table.
Qed.

Lemma ref_cv2_laws : @Cv2Laws ref_cv2.
Proof. split; [apply ref_resize_shape|apply ref_GaussianBlur_shape]. Qed.

(** ** Running the monad *)

Lemma bind_ok {A B} (m : M A) (k : A → M B) (σ σ' : world) (a : A) :
  m σ = (Ok a, σ') → (m ≫= k) σ = k a σ'.
Proof. intros Hm. unfold mbind, M_bind, bind. by rewrite Hm. Qed.

Lemma bind_raise {A B} (m : M A) (k : A → M B) (σ σ' : world) (e : exn) :
  m σ = (Raise e, σ') → (m ≫= k) σ = (Raise e, σ').
Proof. intros Hm. unfold mbind, M_bind, bind. by rewrite Hm. Qed.

Lemma read_ok (l : loc) (a : ndarray) (σ : world) :
  heap σ !! l = Some a → read l σ = (Ok a, σ).
Proof. intros Hl. unfold read. by rewrite Hl. Qed.

Lemma alloc_fresh (σ : world) :
  heap σ !! fresh (dom (heap σ)) = None.
Proof. apply not_elem_of_dom, is_fresh. Qed.

Ltac run_call Hsrc :=
  unfold cv2_transform, cv2_resize, cv2_GaussianBlur, np_clip, np_astype_uint8;
  unfold mbind, M_bind, bind, emit, read; simpl; rewrite Hsrc.

Section Calls.
Context `{Cv2}.

Lemma cv2_transform_ok (src : loc) (m : mat3) (a : ndarray) (σ : world) :
  heap σ !! src = Some a →
  cv2_transform src m σ
  = (Ok (fresh (dom (heap σ))),
     after_call (CvTransform src m) (image_map (cv_matvec m) a) σ).
Proof. intros Hsrc. by run_call Hsrc. Qed.

Lemma np_clip_ok (src : loc) (lo hi : Z) (a : ndarray) (σ : world) :
  heap σ !! src = Some a →
  np_clip src lo hi σ
  = (Ok (fresh (dom (heap σ))),
     after_call (NpClip src lo hi) (image_map (px_map (clip lo hi)) a) σ).
Proof. intros Hsrc. by run_call Hsrc. Qed.

Lemma np_astype_uint8_ok (src : loc) (a : ndarray) (σ : world) :
  heap σ !! src = Some a →
  np_astype_uint8 src σ
  = (Ok (fresh (dom (heap σ))),
     after_call (NpAstypeUint8 src) (image_map (px_map astype_uint8) a) σ).
Proof. intros Hsrc. by run_call Hsrc. Qed.

Lemma cv2_resize_ok (src : loc) (dsize : pyobj) (a out : ndarray) (σ : world) :
  heap σ !! src = Some a → cv_resize a dsize = Some out →
  cv2_resize src dsize σ
  = (Ok (fresh (dom (heap σ))), after_call (CvResize src dsize) out σ).
Proof. intros Hsrc Hout. run_call Hsrc. by rewrite Hout. Qed.

Lemma cv2_resize_raise (src : loc) (dsize : pyobj) (a : ndarray) (σ : world) :
  heap σ !! src = Some a → cv_resize a dsize = None →
  cv2_resize src dsize σ
  = (Raise CvError, World (self σ) (heap σ) (trace σ ++ [CvResize src dsize])).
Proof. intros Hsrc Hout. run_call Hsrc. by rewrite Hout. Qed.

Lemma cv2_GaussianBlur_ok
    (src : loc) (ksize : pyobj) (sigmaX : Q) (a out : ndarray) (σ : world) :
  heap σ !! src = Some a → cv_GaussianBlur a ksize sigmaX = Some out →
  cv2_GaussianBlur src ksize sigmaX σ
  = (Ok (fresh (dom (heap σ))),
     after_call (CvGaussianBlur src ksize sigmaX) out σ).
Proof. intros Hsrc Hout. run_call Hsrc. by rewrite Hout. Qed.

Lemma cv2_GaussianBlur_raise
    (src : loc) (ksize : pyobj) (sigmaX : Q) (a : ndarray) (σ : world) :
  heap σ !! src = Some a → cv_GaussianBlur a ksize sigmaX = None →
  cv2_GaussianBlur src ksize sigmaX σ
  = (Raise CvError,
     World (self σ) (heap σ) (trace σ ++ [CvGaussianBlur src ksize sigmaX])).
Proof. intros Hsrc Hout. run_call Hsrc. by rewrite Hout. Qed.

Lemma after_call_result (e : event) (out : ndarray) (σ : world) :
  heap (after_call e out σ) !! fresh (dom (heap σ)) = Some out.
Proof. apply lookup_insert_eq. Qed.

Lemma after_call_subseteq (e : event) (out : ndarray) (σ : world) :
  heap σ ⊆ heap (after_call e out σ).
Proof. apply insert_subseteq, alloc_fresh. Qed.

Lemma after_call_old (e : event) (out a : ndarray) (l : loc) (σ : world) :
  heap σ !! l = Some a → heap (after_call e out σ) !! l = Some a.
Proof.
  intros Hl. simpl. rewrite lookup_insert_ne; [done|].
  intros <-. by rewrite alloc_fresh in Hl.
Qed.

End Calls.

(** ** What a method may change *)

Lemma extends_refl (σ : world) : extends σ σ.
Proof. by repeat split. Qed.

Lemma extends_trans (σ1 σ2 σ3 : world) :
  extends σ1 σ2 → extends σ2 σ3 → extends σ1 σ3.
Proof.
  intros (Hs & Hh & Ht) (Hs' & Hh' & Ht'). repeat split.
  - congruence.
  - by transitivity (heap σ2).
  - by transitivity (trace σ2).
Qed.

Lemma framed_ret {A} (a : A) : framed (mret a : M A).
Proof. intros σ. apply extends_refl. Qed.

Lemma framed_raise {A} (e : exn) : framed (raise e : M A).
Proof. intros σ. apply extends_refl. Qed.

Lemma framed_get_self : framed get_self.
Proof. intros σ. apply extends_refl. Qed.

Lemma framed_emit (e : event) : framed (emit e).
Proof. intros σ. split; [done|]. split; simpl; [done|]. by apply prefix_app_r. Qed.

Lemma framed_read (l : loc) : framed (read l).
Proof. intros σ. unfold read. destruct (heap σ !! l); apply extends_refl. Qed.

Lemma framed_alloc (a : ndarray) : framed (alloc a).
Proof.
  intros σ. split; [done|]. split; simpl; [|done].
  apply insert_subseteq, alloc_fresh.
Qed.

Lemma framed_bind {A B} (m : M A) (k : A → M B) :
  framed m → (∀ a, framed (k a)) → framed (m ≫= k).
Proof.
  intros Hm Hk σ. unfold mbind, M_bind, bind.
  specialize (Hm σ). destruct (m σ) as [[a|e] σ1]; simpl in *; [|done].
  eapply extends_trans; [exact Hm|apply Hk].
Qed.

Create HintDb framed.
#[local] Hint Resolve framed_ret framed_raise framed_get_self framed_emit
  framed_read framed_alloc : framed.
#[local] Hint Extern 2 (framed (_ ≫= _)) => apply framed_bind; [|intros] : framed.
#[local] Hint Extern 2 (framed (print _)) => apply framed_emit : framed.
#[local] Hint Extern 3 (framed (match ?x with _ => _ end)) => destruct x : framed.

Section Frame.
Context `{Cv2}.

Lemma framed_cv2_transform (src : loc) (m : mat3) : framed (cv2_transform src m).
Proof. unfold cv2_transform. auto 10 with framed. Qed.

Lemma framed_cv2_resize (src : loc) (dsize : pyobj) : framed (cv2_resize src dsize).
Proof. unfold cv2_resize. auto 10 with framed. Qed.

Lemma framed_cv2_GaussianBlur (src : loc) (ksize : pyobj) (sigmaX : Q) :
  framed (cv2_GaussianBlur src ksize sigmaX).
Proof. unfold cv2_GaussianBlur. auto 10 with framed. Qed.

Lemma framed_np_clip (a : loc) (lo hi : Z) : framed (np_clip a lo hi).
Proof. unfold np_clip. auto 10 with framed. Qed.

Lemma framed_np_astype_uint8 (a : loc) : framed (np_astype_uint8 a).
Proof. unfold np_astype_uint8. auto 10 with framed. Qed.

#[local] Hint Resolve framed_cv2_transform framed_cv2_resize
  framed_cv2_GaussianBlur framed_np_clip framed_np_astype_uint8 : framed.

Lemma framed__apply_sepia_local (image : loc) : framed (_apply_sepia_local image).
Proof. unfold _apply_sepia_local. auto 10 with framed. Qed.

Lemma framed_process_image_remote
    (image : loc) (operation : string) (kwargs : gmap string pyobj) :
  framed (process_image_remote image operation kwargs).
Proof.
  unfold process_image_remote.
  apply framed_bind; [auto with framed|intros d].
  destruct (negb (connected d)); [auto with framed|].
  apply framed_bind; [auto with framed|intros _].
  repeat case_decide; auto using framed__apply_sepia_local with framed.
Qed.

End Frame.

(** ** The branches of [process_image_remote] *)

Ltac run_process Hc :=
  unfold process_image_remote, mbind, M_bind, bind, get_self, print, emit, raise;
  simpl; rewrite Hc; simpl; repeat case_decide; try done.

Section Branches.
Context `{Cv2}.

Lemma process_disconnected
    (image : loc) (operation : string) (kwargs : gmap string pyobj) (σ : world) :
  connected (self σ) = false →
  process_image_remote image operation kwargs σ = (Raise not_connected, σ).
Proof. intros Hc. by run_process Hc. Qed.

Lemma process_sepia (image : loc) (kwargs : gmap string pyobj) (σ : world) :
  connected (self σ) = true →
  process_image_remote image "sepia" kwargs σ
  = _apply_sepia_local image (delegating "sepia" σ).
Proof. intros Hc. by run_process Hc. Qed.

Lemma process_resize (image : loc) (kwargs : gmap string pyobj) (σ : world) :
  connected (self σ) = true →
  process_image_remote image "resize" kwargs σ
  = cv2_resize image (default (PyTuple [PyInt 800; PyInt 600]) (kwargs !! "size"))
      (delegating "resize" σ).
Proof. intros Hc. by run_process Hc. Qed.

Lemma process_blur (image : loc) (kwargs : gmap string pyobj) (σ : world) :
  connected (self σ) = true →
  process_image_remote image "blur" kwargs σ
  = cv2_GaussianBlur image
      (let kernel_size := default (PyInt 15) (kwargs !! "kernel_size") in
       PyTuple [kernel_size; kernel_size]) 0%Q
      (delegating "blur" σ).
Proof. intros Hc. by run_process Hc. Qed.

Lemma process_other
    (image : loc) (operation : string) (kwargs : gmap string pyobj) (σ : world) :
  connected (self σ) = true →
  operation ≠ "sepia" → operation ≠ "resize" → operation ≠ "blur" →
  process_image_remote image operation kwargs σ
  = (Ok image, delegating operation σ).
Proof. intros Hc ???. by run_process Hc. Qed.

(** ** The sepia pipeline *)

Lemma image_map_compose (f g : pixel → pixel) (img : ndarray) :
  image_map f (image_map g img) = image_map (λ p, f (g p)) img.
Proof.
  unfold image_map. rewrite map_map. apply map_ext. intros r. by rewrite map_map.
Qed.

Lemma _apply_sepia_local_ok (image : loc) (img : ndarray) (σ : world) :
  heap σ !! image = Some img →
  _apply_sepia_local image σ = (Ok (sepia_loc image img σ), sepia_world image img σ)
  ∧ heap (sepia_world image img σ) !! sepia_loc image img σ
    = Some (image_map sepia_pixel img).
Proof.
  intros Hsrc. unfold _apply_sepia_local. split.
  - erewrite bind_ok; [|by apply cv2_transform_ok].
    erewrite bind_ok; [|apply np_clip_ok, after_call_result].
    erewrite np_astype_uint8_ok; [done|apply after_call_result].
  - unfold sepia_world, sepia_loc. rewrite after_call_result.
    by rewrite !image_map_compose.
Qed.

End Branches.

(** ** Shapes and sample ranges *)

Lemma shape_image_map (f : pixel → pixel) (img : ndarray) (h w : nat) :
  shape img h w → shape (image_map f img) h w.
Proof.
  intros [Hlen Hrows]. split.
  - unfold image_map. by rewrite length_map.
  - unfold image_map. apply Forall_map.
    eapply Forall_impl; [exact Hrows|]. intros r Hr. simpl. by rewrite length_map.
Qed.

Lemma u8_image_map (f : pixel → pixel) (img : ndarray) :
  (∀ p, u8_pixel (f p)) → u8_image (image_map f img).
Proof.
  intros Hf. unfold u8_image, image_map.
  apply Forall_map, Forall_true. intros r. simpl.
  apply Forall_map, Forall_true. intros p. apply Hf.
Qed.

Lemma image_map_full (f : pixel → pixel) (h w : nat) (p : pixel) :
  image_map f (full h w p) = full h w (f p).
Proof. unfold image_map, full. by rewrite !map_repeat. Qed.

Lemma shape_full (h w : nat) (p : pixel) : shape (full h w p) h w.
Proof.
  split; unfold full.
  - apply repeat_length.
  - apply Forall_forall. intros r Hr%list_elem_of_In%repeat_spec. subst r.
    apply repeat_length.
Qed.

Lemma u8_image_full (h w : nat) (p : pixel) : u8_pixel p → u8_image (full h w p).
Proof.
  intros Hp. apply Forall_forall. intros r Hr%list_elem_of_In%repeat_spec. subst r.
  apply Forall_forall. intros q Hq%list_elem_of_In%repeat_spec. by subst q.
Qed.



Lemma clip_u8 (x : Z) : u8 (clip 0 255 x).
Proof. unfold u8, clip. lia. Qed.

Lemma astype_uint8_u8 (x : Z) : u8 x → astype_uint8 x = x.
Proof. unfold u8, astype_uint8. intros Hx. by apply Z.mod_small; lia. Qed.

Section Sepia.
Context `{Cv2}.

(** after the clip the cast changes nothing *)
Lemma sepia_pixel_clip (p : pixel) :
  sepia_pixel p = px_map (clip 0 255) (cv_matvec kernel p).
Proof.
  unfold sepia_pixel, px_map. simpl.
  by rewrite !astype_uint8_u8 by apply clip_u8.
Qed.

Lemma sepia_pixel_u8 (p : pixel) : u8_pixel (sepia_pixel p).
Proof. rewrite sepia_pixel_clip. repeat split; apply clip_u8. Qed.

End Sepia.

(** ** What a call returns *)

Section Outcome.
Context `{Cv2}.

Lemma process_outcome
    (σ : world) (image : loc) (img : ndarray)
    (operation : string) (kwargs : gmap string pyobj) :
  heap σ !! image = Some img →
  outcome (process_image_remote image operation kwargs σ)
  = Some (process_value (connected (self σ)) img operation kwargs).
Proof.
  intros Himg. unfold process_value.
  destruct (connected (self σ)) eqn:Hc; simpl.
  2: { by rewrite process_disconnected. }
  assert (Hd : heap (delegating operation σ) !! image = Some img) by done.
  destruct (decide (operation = "sepia")) as [->|Hs].
  { rewrite process_sepia by done.
    destruct (_apply_sepia_local_ok image img _ Hd) as [-> Hres].
    unfold outcome. cbn [fst snd]. by rewrite Hres. }
  destruct (decide (operation = "resize")) as [->|Hr].
  { rewrite process_resize by done.
    destruct (cv_resize img _) as [out|] eqn:Hout.
    - erewrite cv2_resize_ok by done.
      unfold outcome. cbn [fst snd]. by rewrite after_call_result.
    - by erewrite cv2_resize_raise by done. }
  destruct (decide (operation = "blur")) as [->|Hb].
  { rewrite process_blur by done. simpl.
    destruct (cv_GaussianBlur img _ _) as [out|] eqn:Hout.
    - erewrite cv2_GaussianBlur_ok by done.
      unfold outcome. cbn [fst snd]. by rewrite after_call_result.
    - by erewrite cv2_GaussianBlur_raise by done. }
  rewrite process_other by done. unfold outcome. simpl. by rewrite Himg.
Qed.

(** a reference returned by one of the three transforms was not in use *)
Lemma process_returns_fresh
    (σ σ' : world) (image l : loc) (operation : string) (kwargs : gmap string pyobj) :
  operation = "sepia" ∨ operation = "resize" ∨ operation = "blur" →
  process_image_remote image operation kwargs σ = (Ok l, σ') →
  heap σ !! l = None.
Proof.
  intros Hop Hrun.
  destruct (connected (self σ)) eqn:Hc.
  2: { by rewrite process_disconnected in Hrun. }
  destruct (heap σ !! image) as [img|] eqn:Himg.
  2: { exfalso. destruct Hop as [-> | [-> | ->]].
       - rewrite process_sepia in Hrun by done. revert Hrun.
         unfold _apply_sepia_local, cv2_transform.
         unfold mbind, M_bind, bind, emit, read. simpl. by rewrite Himg.
       - rewrite process_resize in Hrun by done. revert Hrun.
         unfold cv2_resize, mbind, M_bind, bind, emit, read. simpl. by rewrite Himg.
       - rewrite process_blur in Hrun by done. revert Hrun.
         unfold cv2_GaussianBlur, mbind, M_bind, bind, emit, read. simpl.
         by rewrite Himg. }
  assert (Hd : heap (delegating operation σ) !! image = Some img) by done.
  destruct Hop as [-> | [-> | ->]].
  - rewrite process_sepia in Hrun by done.
    destruct (_apply_sepia_local_ok image img _ Hd) as [Hrun' _].
    rewrite Hrun' in Hrun. injection Hrun as <- _.
    unfold sepia_loc. cbv zeta.
    set (σ1 := after_call _ _ (delegating "sepia" σ)).
    set (σ2 := after_call _ _ σ1).
    assert (Hsub : heap σ ⊆ heap σ2).
    { transitivity (heap σ1); [|apply after_call_subseteq].
      apply (after_call_subseteq _ _ (delegating "sepia" σ)). }
    eapply lookup_weaken_None; [apply (alloc_fresh σ2)|exact Hsub].
  - rewrite process_resize in Hrun by done.
    destruct (cv_resize img (default (PyTuple [PyInt 800; PyInt 600]) (kwargs !! "size")))
      as [out|] eqn:Hout.
    + erewrite cv2_resize_ok in Hrun by done. injection Hrun as <- _.
      apply (alloc_fresh σ).
    + by erewrite cv2_resize_raise in Hrun by done.
  - rewrite process_blur in Hrun by done. simpl in Hrun.
    destruct (cv_GaussianBlur img
                (PyTuple [default (PyInt 15) (kwargs !! "kernel_size");
                          default (PyInt 15) (kwargs !! "kernel_size")]) 0%Q)
      as [out|] eqn:Hout.
    + erewrite cv2_GaussianBlur_ok in Hrun by done. injection Hrun as <- _.
      apply (alloc_fresh σ).
    + by erewrite cv2_GaussianBlur_raise in Hrun by done.
Qed.

End Outcome.

Section Traces.
Context `{Cv2} `{!Cv2Laws}.

Lemma cv2_GaussianBlur_trace
    (src : loc) (ksize : pyobj) (sigmaX : Q) (a : ndarray) (σ : world) :
  heap σ !! src = Some a →
  trace (cv2_GaussianBlur src ksize sigmaX σ).2
  = trace σ ++ [CvGaussianBlur src ksize sigmaX].
Proof.
  intros Hsrc. destruct (cv_GaussianBlur a ksize sigmaX) as [out|] eqn:Hout.
  - by erewrite cv2_GaussianBlur_ok by done.
  - by erewrite cv2_GaussianBlur_raise by done.
Qed.

Lemma process_blur_trace
    (σ : world) (image : loc) (kwargs : gmap string pyobj) (img : ndarray) :
  connected (self σ) = true →
  heap σ !! image = Some img →
  trace (process_image_remote image "blur" kwargs σ).2
  = trace σ
    ++ [Print "Delegating blur operation to cloud agent...";
        CvGaussianBlur image
          (PyTuple [default (PyInt 15) (kwargs !! "kernel_size");
                    default (PyInt 15) (kwargs !! "kernel_size")]) 0%Q].
Proof.
  intros Hc Himg. rewrite process_blur by done.
  erewrite cv2_GaussianBlur_trace by (simpl; done).
  simpl. by rewrite <- app_assoc.
Qed.

Lemma process_blur_ok
    (σ : world) (image : loc) (kwargs : gmap string pyobj)
    (img : ndarray) (h w : nat) (K : Z) :
  connected (self σ) = true →
  heap σ !! image = Some img →
  shape img h w → u8_image img → (0 < h)%nat → (0 < w)%nat →
  default (PyInt 15) (kwargs !! "kernel_size") = PyInt K →
  0 < K → Z.odd K = true →
  ∃ l σ' out,
    process_image_remote image "blur" kwargs σ = (Ok l, σ')
    ∧ heap σ' !! l = Some out
    ∧ shape out h w.
Proof.
  intros Hc Himg Hsh Hu8 Hh Hw Hk HK Hodd.
  destruct (cv_GaussianBlur_shape img h w K Hsh Hu8 Hh Hw HK Hodd)
    as (out & Hout & Hshape).
  eexists _, _, out. rewrite process_blur by done. simpl. rewrite Hk.
  erewrite cv2_GaussianBlur_ok by done.
  split; [done|]. split; [apply after_call_result|done].
Qed.

Lemma process_resize_ok
    (σ : world) (image : loc) (kwargs : gmap string pyobj)
    (img : ndarray) (h w : nat) (W H' : Z) :
  connected (self σ) = true →
  heap σ !! image = Some img →
  shape img h w → u8_image img → (0 < h)%nat → (0 < w)%nat →
  default (PyTuple [PyInt 800; PyInt 600]) (kwargs !! "size")
  = PyTuple [PyInt W; PyInt H'] →
  0 < W → 0 < H' →
  ∃ l σ' out,
    process_image_remote image "resize" kwargs σ = (Ok l, σ')
    ∧ heap σ' !! l = Some out
    ∧ shape out (Z.to_nat H') (Z.to_nat W).
Proof.
  intros Hc Himg Hsh Hu8 Hh Hw Hsize HW HH.
  destruct (cv_resize_shape img h w W H' Hsh Hu8 Hh Hw HW HH)
    as (out & Hout & Hshape).
  eexists _, _, out. rewrite process_resize by done. rewrite Hsize.
  erewrite cv2_resize_ok by done.
  split; [done|]. split; [apply after_call_result|done].
Qed.

End Traces.

Lemma shape_demo_image : shape demo_image 2 2.
Proof. split; [reflexivity|]. by repeat constructor. Qed.

Lemma u8_demo_image : u8_image demo_image.
Proof. repeat constructor; simpl; lia. Qed.

(** * The claims *)

(** C1. While [connected] is false, [process_image_remote] raises the
    "Not connected" RuntimeError for every array reference, operation name
    and keyword mapping, and the world it leaves is the world it found: no
    array allocated, no library call or console line in the trace, both
    fields of the delegate as before.  This is so for a delegate just built
    by [__init__] and for any delegate after [disconnect]. *)
Theorem process_not_connected `{Cv2}
    (σ : world) (image : loc) (operation : string) (kwargs : gmap string pyobj) :
  connected (self σ) = false →
  process_image_remote image operation kwargs σ = (Raise not_connected, σ)
  ∧ (∀ ep hp tr,
       let σ0 := World (__init__ ep) hp tr in
       process_image_remote image operation kwargs σ0 = (Raise not_connected, σ0))
  ∧ (∀ σ1,
       let σ2 := (disconnect σ1).2 in
       process_image_remote image operation kwargs σ2 = (Raise not_connected, σ2)).
Proof.
  intros Hc. split; [|split].
  - by apply process_disconnected.
  - intros ep hp tr σ0. by apply process_disconnected.
  - intros σ1 σ2. by apply process_disconnected.
Qed.

Lemma process_not_connected_witness :
  @process_image_remote ref_cv2 1%positive "sepia" ∅ fresh_world
  = (Raise not_connected, fresh_world).
Proof.
  apply (@process_not_connected ref_cv2 fresh_world 1%positive "sepia" ∅).
  reflexivity.
Defined.


(** ** Rounding, not truncation *)









Section Rounds.
Context `{Cv2} `{!Cv2Rounds}.


End Rounds.




(** C3, as stated, fails: with [kernel_size=4] the aperture handed to
    [cv2.GaussianBlur] is (4, 4), which is not odd, and the call raises. *)
Lemma blur_even_kernel_size_not_resolved :
  trace (@process_image_remote ref_cv2 1%positive "blur"
           {["kernel_size" := PyInt 4]} connected_world).2
  = [Print "Connecting to cloud agent at http://localhost:8000...";
     Print "Delegating blur operation to cloud agent...";
     CvGaussianBlur 1%positive (PyTuple [PyInt 4; PyInt 4]) 0%Q]
  ∧ (@process_image_remote ref_cv2 1%positive "blur"
       {["kernel_size" := PyInt 4]} connected_world).1 = Raise CvError
  ∧ ¬ blur_aperture_resolved
        (trace (@process_image_remote ref_cv2 1%positive "blur"
                  {["kernel_size" := PyInt 4]} connected_world).2).
Proof.
  assert (Htr : trace (@process_image_remote ref_cv2 1%positive "blur"
                         {["kernel_size" := PyInt 4]} connected_world).2
                = [Print "Connecting to cloud agent at http://localhost:8000...";
                   Print "Delegating blur operation to cloud agent...";
                   CvGaussianBlur 1%positive (PyTuple [PyInt 4; PyInt 4]) 0%Q])
    by reflexivity.
  split; [exact Htr|]. split; [reflexivity|].
  rewrite Htr. intros Hres.
  destruct (Hres 1%positive (PyTuple [PyInt 4; PyInt 4]) 0%Q) as (k & Hk & _ & Hodd).
  { set_solver. }
  injection Hk as <-. discriminate Hodd.
Qed.

(** C3, amended.  On a connected delegate the blur call hands
    [cv2.GaussianBlur] the aperture [(k, k)] for the [kernel_size] it was
    given, unchanged, and [(15, 15)] when none was given, always with
    [sigmaX = 0]: nothing resolves the size to an odd positive one.  For a
    non-empty 8-bit array, when the size is an odd positive integer, and
    when it is absent, the call returns a new array with the dimensions of
    the input. *)
Theorem blur_kernel_size_as_supplied `{Cv2} `{!Cv2Laws}
    (σ : world) (image : loc) (kwargs : gmap string pyobj)
    (img : ndarray) (h w : nat) :
  connected (self σ) = true →
  heap σ !! image = Some img →
  shape img h w → u8_image img → (0 < h)%nat → (0 < w)%nat →
  (∀ k, kwargs !! "kernel_size" = Some k →
        trace (process_image_remote image "blur" kwargs σ).2
        = trace σ ++ [Print "Delegating blur operation to cloud agent...";
                      CvGaussianBlur image (PyTuple [k; k]) 0%Q])
  ∧ (kwargs !! "kernel_size" = None →
     trace (process_image_remote image "blur" kwargs σ).2
     = trace σ ++ [Print "Delegating blur operation to cloud agent...";
                   CvGaussianBlur image (PyTuple [PyInt 15; PyInt 15]) 0%Q])
  ∧ (∀ K, kwargs !! "kernel_size" = Some (PyInt K) ∨
          (kwargs !! "kernel_size" = None ∧ K = 15) →
          0 < K → Z.odd K = true →
          ∃ l σ' out,
            process_image_remote image "blur" kwargs σ = (Ok l, σ')
            ∧ heap σ' !! l = Some out
            ∧ shape out h w).
Proof.
  intros Hc Himg Hsh Hu8 Hh Hw. split; [|split].
  - intros k Hk. erewrite process_blur_trace by done. by rewrite Hk.
  - intros Hk. erewrite process_blur_trace by done. by rewrite Hk.
  - intros K HK Hpos Hodd. eapply process_blur_ok; try done.
    by destruct HK as [-> | [-> ->]].
Qed.

Lemma blur_kernel_size_as_supplied_witness :
  ∃ l σ' out,
    @process_image_remote ref_cv2 1%positive "blur"
      {["kernel_size" := PyInt 3]} connected_world = (Ok l, σ')
    ∧ heap σ' !! l = Some out
    ∧ shape out 2 2.
Proof.
  destruct (@blur_kernel_size_as_supplied ref_cv2 ref_cv2_laws connected_world 1%positive
              {["kernel_size" := PyInt 3]} demo_image 2 2)
    as (_ & _ & Hodd);
    [reflexivity|reflexivity|apply shape_demo_image|apply u8_demo_image|lia|lia|].
  apply (Hodd 3); [left; apply lookup_singleton_eq|lia|reflexivity].
Defined.

(** C4. On a connected delegate, for a non-empty 8-bit array,
    [process_image_remote(image, "resize", size=(W, H))] with positive [W]
    and [H] returns a new array with [H] rows and [W] columns: the pair is
    (width, height) and the array's shape is (height, width, 3).  Without
    [size] the target is (800, 600): 600 rows and 800 columns. *)
Theorem resize_dimensions `{Cv2} `{!Cv2Laws}
    (σ : world) (image : loc) (kwargs : gmap string pyobj)
    (img : ndarray) (h w : nat) :
  connected (self σ) = true →
  heap σ !! image = Some img →
  shape img h w → u8_image img → (0 < h)%nat → (0 < w)%nat →
  (∀ W H', kwargs !! "size" = Some (PyTuple [PyInt W; PyInt H']) →
           0 < W → 0 < H' →
           ∃ l σ' out,
             process_image_remote image "resize" kwargs σ = (Ok l, σ')
             ∧ heap σ' !! l = Some out
             ∧ shape out (Z.to_nat H') (Z.to_nat W))
  ∧ (kwargs !! "size" = None →
     ∃ l σ' out,
       process_image_remote image "resize" kwargs σ = (Ok l, σ')
       ∧ heap σ' !! l = Some out
       ∧ shape out 600 800).
Proof.
  intros Hc Himg Hsh Hu8 Hh Hw. split.
  - intros W H' Hsize HW HH.
    eapply process_resize_ok; try done. by rewrite Hsize.
  - intros Hsize.
    apply (process_resize_ok σ image kwargs img h w 800 600); try done.
    by rewrite Hsize.
Qed.

Lemma resize_dimensions_witness :
  ∃ l σ' out,
    @process_image_remote ref_cv2 1%positive "resize"
      {["size" := PyTuple [PyInt 3; PyInt 1]]} connected_world = (Ok l, σ')
    ∧ heap σ' !! l = Some out
    ∧ shape out 1 3.
Proof.
  destruct (@resize_dimensions ref_cv2 ref_cv2_laws connected_world 1%positive
              {["size" := PyTuple [PyInt 3; PyInt 1]]} demo_image 2 2)
    as [Hgiven _];
    [reflexivity|reflexivity|apply shape_demo_image|apply u8_demo_image|lia|lia|].
  apply (Hgiven 3 1); [apply lookup_singleton_eq|lia|lia].
Defined.

(** C5. On a connected delegate an operation name other than "sepia",
    "resize" and "blur" makes [process_image_remote] return the very
    reference it was given, without raising; no array is allocated or
    changed, so the array returned is the input array. *)
Theorem process_unknown_operation `{Cv2}
    (σ : world) (image : loc) (operation : string) (kwargs : gmap string pyobj) :
  connected (self σ) = true →
  operation ≠ "sepia" → operation ≠ "resize" → operation ≠ "blur" →
  ∃ σ', process_image_remote image operation kwargs σ = (Ok image, σ')
        ∧ heap σ' = heap σ
        ∧ self σ' = self σ
        ∧ ∀ img, heap σ !! image = Some img → heap σ' !! image = Some img.
Proof.
  intros Hc Hs Hr Hb. exists (delegating operation σ).
  split; [by apply process_other|]. by repeat split.
Qed.

Lemma process_unknown_operation_witness :
  ∃ σ', @process_image_remote ref_cv2 1%positive "unknown_op" ∅ connected_world
        = (Ok 1%positive, σ')
        ∧ heap σ' = heap connected_world
        ∧ self σ' = self connected_world
        ∧ ∀ img, heap connected_world !! 1%positive = Some img
                 → heap σ' !! 1%positive = Some img.
Proof.
  apply (@process_unknown_operation ref_cv2 connected_world 1%positive "unknown_op" ∅);
    [reflexivity|discriminate..].
Defined.

(** C6. The flag is a two-state machine.  [__init__] leaves it false.
    [connect] never raises, sets it to true whatever it was, and returns
    the flag it has just set.  [disconnect] never raises, returns [None],
    sets the flag to false whatever it was, and a second [disconnect]
    leaves the delegate as the first one did.  Neither touches the
    endpoint or the arrays. *)
Theorem connection_state_machine :
  (∀ ep, connected (__init__ ep) = false)
  ∧ (∀ σ, ∃ σ', connect σ = (Ok true, σ')
                ∧ connected (self σ') = true
                ∧ endpoint (self σ') = endpoint (self σ)
                ∧ heap σ' = heap σ)
  ∧ (∀ σ, ∃ σ', disconnect σ = (Ok (), σ')
                ∧ connected (self σ') = false
                ∧ endpoint (self σ') = endpoint (self σ)
                ∧ heap σ' = heap σ)
  ∧ (∀ σ, self (disconnect (disconnect σ).2).2 = self (disconnect σ).2)
  ∧ (∀ σ, self (disconnect (connect σ).2).2 = Delegate (endpoint (self σ)) false)
  ∧ (∀ σ, self (connect (disconnect σ).2).2 = Delegate (endpoint (self σ)) true).
Proof.
  repeat split.
  - intros σ. by eexists.
  - intros σ. by eexists.
Qed.





(** C8. A call never changes the array it was given: whatever the
    operation and whatever the outcome, the input reference holds the same
    contents afterwards, as does every other array, and the delegate is as
    before.  A reference returned for "sepia", "resize" or "blur" is a new
    one (unused before the call, so not the input's); for any other
    operation name the reference returned is the input's own. *)
Theorem process_never_mutates_input `{Cv2}
    (σ : world) (image : loc) (operation : string) (kwargs : gmap string pyobj)
    (img : ndarray) :
  heap σ !! image = Some img →
  heap (process_image_remote image operation kwargs σ).2 !! image = Some img
  ∧ heap σ ⊆ heap (process_image_remote image operation kwargs σ).2
  ∧ self (process_image_remote image operation kwargs σ).2 = self σ
  ∧ (∀ l, (process_image_remote image operation kwargs σ).1 = Ok l →
          (operation = "sepia" ∨ operation = "resize" ∨ operation = "blur" →
           l ≠ image ∧ heap σ !! l = None)
          ∧ (operation ≠ "sepia" → operation ≠ "resize" → operation ≠ "blur" →
             l = image)).
Proof.
  intros Himg.
  destruct (framed_process_image_remote image operation kwargs σ) as (Hs & Hh & _).
  split; [by eapply lookup_weaken|]. split; [done|]. split; [done|].
  intros l Hl.
  destruct (process_image_remote image operation kwargs σ) as [r σ'] eqn:Hrun.
  simpl in Hl. subst r. split.
  - intros Hop. pose proof (process_returns_fresh _ _ _ _ _ _ Hop Hrun) as Hfresh.
    split; [|done]. intros ->. congruence.
  - intros Hs' Hr Hb. destruct (connected (self σ)) eqn:Hc.
    + rewrite process_other in Hrun by done. congruence.
    + by rewrite process_disconnected in Hrun.
Qed.

Lemma process_never_mutates_input_witness :
  heap (@process_image_remote ref_cv2 1%positive "blur" ∅ connected_world).2 !! 1%positive
  = Some demo_image.
Proof.
  apply (@process_never_mutates_input ref_cv2 connected_world 1%positive "blur" ∅).
  reflexivity.
Defined.

(** C9. No call of [process_image_remote], whatever its outcome, changes
    the delegate: the record after the call is the record before it, so
    [connected] and [endpoint] are as they were; the same holds for
    [_apply_sepia_local].  [connect] and [disconnect] write [connected] and
    leave [endpoint].  A delegate is exactly its two fields. *)
Theorem process_preserves_delegate `{Cv2}
    (σ : world) (image : loc) (operation : string) (kwargs : gmap string pyobj) :
  self (process_image_remote image operation kwargs σ).2 = self σ
  ∧ connected (self (process_image_remote image operation kwargs σ).2)
    = connected (self σ)
  ∧ endpoint (self (process_image_remote image operation kwargs σ).2)
    = endpoint (self σ)
  ∧ self (_apply_sepia_local image σ).2 = self σ
  ∧ endpoint (self (connect σ).2) = endpoint (self σ)
  ∧ endpoint (self (disconnect σ).2) = endpoint (self σ)
  ∧ (∀ d : CloudAgentDelegate, d = Delegate (endpoint d) (connected d)).
Proof.
  destruct (framed_process_image_remote image operation kwargs σ) as (Hs & _ & _).
  destruct (framed__apply_sepia_local image σ) as (Hs' & _ & _).
  rewrite Hs. repeat split; try done. by intros [].
Qed.

(** C10. The outcome of a call (the contents of the array returned, or
    the exception raised) is a function of the flag, the contents of the
    input array, the operation name and the keyword mapping: two calls that
    agree on these agree on the outcome, whatever the endpoints, the other
    arrays, the references and the traces of the two worlds. *)
Theorem process_deterministic `{Cv2}
    (σ1 σ2 : world) (image1 image2 : loc) (img : ndarray)
    (operation : string) (kwargs : gmap string pyobj) :
  connected (self σ1) = connected (self σ2) →
  heap σ1 !! image1 = Some img →
  heap σ2 !! image2 = Some img →
  outcome (process_image_remote image1 operation kwargs σ1)
  = outcome (process_image_remote image2 operation kwargs σ2)
  ∧ is_Some (outcome (process_image_remote image1 operation kwargs σ1)).
Proof.
  intros Hc H1 H2.
  rewrite (process_outcome σ1 image1 img), (process_outcome σ2 image2 img) by done.
  by rewrite Hc.
Qed.

Lemma process_deterministic_witness :
  outcome (@process_image_remote ref_cv2 1%positive "sepia" ∅ connected_world)
  = outcome (@process_image_remote ref_cv2 5%positive "sepia" ∅ other_world).
Proof.
  apply (@process_deterministic ref_cv2 connected_world other_world
           1%positive 5%positive demo_image "sepia" ∅); reflexivity.
Defined.

(** * The demo runs to its end *)

Lemma returns_bind {A B} (m : M A) (k : A → M B) (σ : world) (Q : B → world → Prop) :
  returns m σ (λ a σ', returns (k a) σ' Q) → returns (m ≫= k) σ Q.
Proof.
  intros (a & σ' & Hm & b & σ'' & Hk & HQ).
  exists b, σ''. split; [|done]. by erewrite bind_ok.
Qed.

Lemma returns_print (line : string) (σ : world) (Q : unit → world → Prop) :
  (∀ σ', extends σ σ' → Q () σ') → returns (print line) σ Q.
Proof. intros HQ. eexists _, _. split; [done|]. apply HQ, (framed_emit _ σ). Qed.

Section Demo.
Context `{Cv2} `{!Cv2Laws}.

Lemma returns_process
    (σ : world) (image : loc) (operation : string) (kwargs : gmap string pyobj)
    (Q : loc → world → Prop) :
  (∃ l σ', process_image_remote image operation kwargs σ = (Ok l, σ')) →
  (∀ l σ', extends σ σ' → Q l σ') →
  returns (process_image_remote image operation kwargs) σ Q.
Proof.
  intros (l & σ' & Hrun) HQ. exists l, σ'. split; [done|].
  apply HQ. pose proof (framed_process_image_remote image operation kwargs σ) as Hf.
  by rewrite Hrun in Hf.
Qed.

Lemma fill_ok (a : loc) (p : pixel) (x : ndarray) (σ : world) :
  heap σ !! a = Some x →
  fill a p σ
  = (Ok (), World (self σ) (<[a := image_map (λ _, p) x]> (heap σ)) (trace σ)).
Proof. intros Ha. unfold fill. by rewrite Ha. Qed.

Lemma demo_inv_extends (image : loc) (σ σ' : world) :
  demo_inv image σ → extends σ σ' → demo_inv image σ'.
Proof.
  intros [Hs Hi] (Hs' & Hh & _). split; [congruence|by eapply lookup_weaken].
Qed.

Lemma demo_body_returns (image : loc) (σ : world) :
  demo_inv image σ →
  returns
    (sepia_image ← process_image_remote image "sepia" ∅;
     print "✓ Sepia effect applied via cloud agent";;
     blurred ← process_image_remote image "blur" {["kernel_size" := PyInt 21]};
     print "✓ Blur applied via cloud agent";;
     resized ← process_image_remote image "resize"
                 {["size" := PyTuple [PyInt 300; PyInt 200]]};
     print "✓ Resize applied via cloud agent";;
     print (String "010"%char "All operations delegated successfully!"))
    σ (λ _ σ', extends σ σ').
Proof.
  intros Hinv.
  assert (Hshape : shape (full 400 600 (Px 100 150 200)) 400 600) by apply shape_full.
  assert (Hu8 : u8_image (full 400 600 (Px 100 150 200))).
  { apply u8_image_full. repeat split; simpl; lia. }
  apply returns_bind, returns_process.
  { destruct Hinv as [Hs Hi].
    destruct (_apply_sepia_local_ok image _ (delegating "sepia" σ) Hi) as [Hrun _].
    eexists _, _. rewrite process_sepia by (by rewrite Hs). exact Hrun. }
  intros _ σ1 H1. apply returns_bind, returns_print. intros σ2 H2.
  pose proof (extends_trans _ _ _ H1 H2) as H12.
  apply returns_bind, returns_process.
  { destruct (demo_inv_extends _ _ _ Hinv H12) as [Hs Hi].
    destruct (process_blur_ok σ2 image {["kernel_size" := PyInt 21]}
                (full 400 600 (Px 100 150 200)) 400 600 21)
      as (l & σ' & out & Hrun & _);
      try done; try lia; try (by rewrite Hs); try (by rewrite lookup_singleton_eq).
    by eexists _, _. }
  intros _ σ3 H3. apply returns_bind, returns_print. intros σ4 H4.
  pose proof (extends_trans _ _ _ H12 (extends_trans _ _ _ H3 H4)) as H14.
  apply returns_bind, returns_process.
  { destruct (demo_inv_extends _ _ _ Hinv H14) as [Hs Hi].
    destruct (process_resize_ok σ4 image {["size" := PyTuple [PyInt 300; PyInt 200]]}
                (full 400 600 (Px 100 150 200)) 400 600 300 200)
      as (l & σ' & out & Hrun & _);
      try done; try lia; try (by rewrite Hs); try (by rewrite lookup_singleton_eq).
    by eexists _, _. }
  intros _ σ5 H5. apply returns_bind, returns_print. intros σ6 H6.
  apply returns_print. intros σ7 H7.
  repeat (eapply extends_trans; [eassumption|]). apply extends_refl.
Qed.

(** [main] returns without an exception for every implementation of the
    OpenCV interface; it leaves the delegate disconnected at the default
    endpoint and every array that was there before as it was. *)
Theorem main_returns (σ : world) :
  ∃ σ', main σ = (Ok (), σ')
        ∧ self σ' = Delegate default_endpoint false
        ∧ heap σ ⊆ heap σ'.
Proof.
  set (image := fresh (dom (heap σ))).
  set (σ1 := World (Delegate default_endpoint true)
               (<[image := full 400 600 (Px 100 150 200)]> (heap σ))
               (trace σ ++ [Print "Connecting to cloud agent at http://localhost:8000..."])).
  assert (Hpre : ∀ k : loc → M unit,
            (image' ← np_zeros 400 600;
             fill image' (Px 100 150 200);;
             new_delegate None;; connect;; k image') σ = k image σ1).
  { intros k.
    erewrite bind_ok; [|reflexivity].
    erewrite bind_ok; [|apply fill_ok, lookup_insert_eq].
    erewrite bind_ok; [|reflexivity].
    erewrite bind_ok; [|reflexivity].
    unfold σ1. cbn [self heap trace endpoint].
    by rewrite insert_insert_eq, image_map_full. }
  unfold main. rewrite Hpre. unfold try_finally.
  assert (Hinv : demo_inv image σ1) by (split; [done|apply lookup_insert_eq]).
  destruct (demo_body_returns image σ1 Hinv) as ([] & σ2 & -> & Hs & Hh & _).
  eexists. split; [done|]. simpl. rewrite Hs. split; [done|].
  etransitivity; [|exact Hh]. apply insert_subseteq, alloc_fresh.
Qed.

End Demo.

(** * Further properties of the class *)

(** ** What is printed *)

Lemma stdout_app (tr1 tr2 : list event) :
  stdout (tr1 ++ tr2) = stdout tr1 ++ stdout tr2.
Proof. apply omap_app. Qed.

Lemma silent_ret {A} (a : A) : silent (mret a : M A).
Proof. by intros σ. Qed.

Lemma silent_raise {A} (e : exn) : silent (raise e : M A).
Proof. by intros σ. Qed.

Lemma silent_read (l : loc) : silent (read l).
Proof. intros σ. unfold read. by destruct (heap σ !! l). Qed.

Lemma silent_alloc (a : ndarray) : silent (alloc a).
Proof. by intros σ. Qed.

Lemma silent_emit (e : event) :
  match e with Print _ => False | _ => True end → silent (emit e).
Proof.
  intros He σ. simpl. rewrite stdout_app.
  destruct e; [done|..]; apply app_nil_r.
Qed.

Lemma silent_bind {A B} (m : M A) (k : A → M B) :
  silent m → (∀ a, silent (k a)) → silent (m ≫= k).
Proof.
  intros Hm Hk σ. unfold mbind, M_bind, bind.
  specialize (Hm σ). destruct (m σ) as [[a|e] σ1]; simpl in *; [|done].
  by rewrite Hk.
Qed.

Create HintDb silent.
#[local] Hint Resolve silent_ret silent_raise silent_read silent_alloc : silent.
#[local] Hint Extern 2 (silent (_ ≫= _)) => apply silent_bind; [|intros] : silent.
#[local] Hint Extern 2 (silent (emit _)) => apply silent_emit; exact I : silent.
#[local] Hint Extern 3 (silent (match ?x with _ => _ end)) => destruct x : silent.

Section Console.
Context `{Cv2}.

Lemma silent__apply_sepia_local (image : loc) : silent (_apply_sepia_local image).
Proof.
  unfold _apply_sepia_local, cv2_transform, np_clip, np_astype_uint8.
  auto 20 with silent.
Qed.

Lemma silent_cv2_resize (src : loc) (dsize : pyobj) : silent (cv2_resize src dsize).
Proof. unfold cv2_resize. auto 20 with silent. Qed.

Lemma silent_cv2_GaussianBlur (src : loc) (ksize : pyobj) (sigmaX : Q) :
  silent (cv2_GaussianBlur src ksize sigmaX).
Proof. unfold cv2_GaussianBlur. auto 20 with silent. Qed.

Lemma stdout_delegating (operation : string) (σ : world) :
  stdout (trace (delegating operation σ))
  = stdout (trace σ) ++ ["Delegating " +:+ operation +:+ " operation to cloud agent..."].
Proof. unfold delegating. simpl. by rewrite stdout_app. Qed.

Lemma process_stdout_connected
    (σ : world) (image : loc) (operation : string) (kwargs : gmap string pyobj) :
  connected (self σ) = true →
  stdout (trace (process_image_remote image operation kwargs σ).2)
  = stdout (trace σ) ++ ["Delegating " +:+ operation +:+ " operation to cloud agent..."].
Proof.
  intros Hc. rewrite <- stdout_delegating.
  destruct (decide (operation = "sepia")) as [->|Hs].
  { rewrite process_sepia by done. apply silent__apply_sepia_local. }
  destruct (decide (operation = "resize")) as [->|Hr].
  { rewrite process_resize by done. apply silent_cv2_resize. }
  destruct (decide (operation = "blur")) as [->|Hb].
  { rewrite process_blur by done. apply silent_cv2_GaussianBlur. }
  by rewrite process_other.
Qed.

(** X5.  The console after a call of [process_image_remote]: one more line,
    "Delegating <operation> operation to cloud agent...", when the delegate
    is connected, whatever the operation does next and whether or not the
    library call succeeds; nothing more when it is not connected.  The
    library calls and the sepia pipeline print nothing. *)
Theorem process_stdout
    (σ : world) (image : loc) (operation : string) (kwargs : gmap string pyobj) :
  stdout (trace (process_image_remote image operation kwargs σ).2)
  = stdout (trace σ)
    ++ (if connected (self σ)
        then ["Delegating " +:+ operation +:+ " operation to cloud agent..."]
        else []).
Proof.
  destruct (connected (self σ)) eqn:Hc.
  - by apply process_stdout_connected.
  - rewrite process_disconnected by done. simpl. by rewrite app_nil_r.
Qed.

(** X10.  [_apply_sepia_local] has no connection guard: called on its own it
    returns the sepia array on a delegate that is not connected as well,
    prints nothing, and leaves the delegate as it was. *)
Theorem sepia_local_needs_no_connection
    (σ : world) (image : loc) (img : ndarray) :
  connected (self σ) = false →
  heap σ !! image = Some img →
  ∃ l σ', _apply_sepia_local image σ = (Ok l, σ')
          ∧ heap σ' !! l = Some (image_map sepia_pixel img)
          ∧ self σ' = self σ
          ∧ stdout (trace σ') = stdout (trace σ).
Proof.
  intros _ Himg.
  destruct (_apply_sepia_local_ok image img σ Himg) as [Hrun Hres].
  eexists _, _. split; [exact Hrun|]. split; [exact Hres|]. split.
  - pose proof (framed__apply_sepia_local image σ) as (Hs & _). by rewrite Hrun in Hs.
  - pose proof (silent__apply_sepia_local image σ) as Hs. by rewrite Hrun in Hs.
Qed.

End Console.

Lemma sepia_local_needs_no_connection_witness :
  ∃ l σ', @_apply_sepia_local ref_cv2 1%positive fresh_world = (Ok l, σ')
          ∧ heap σ' !! l
            = Some [[Px 134 171 192; Px 0 0 0]; [Px 239 255 255; Px 2 2 2]]
          ∧ self σ' = self fresh_world
          ∧ stdout (trace σ') = stdout (trace fresh_world).
Proof.
  apply (@sepia_local_needs_no_connection ref_cv2 fresh_world 1%positive demo_image);
    reflexivity.
Defined.

(** ** When a call raises *)

Section Raising.
Context `{Cv2}.

Lemma cv2_transform_dangling (src : loc) (m : mat3) (σ : world) :
  heap σ !! src = None →
  cv2_transform src m σ
  = (Raise CvError, World (self σ) (heap σ) (trace σ ++ [CvTransform src m])).
Proof. intros Hsrc. by run_call Hsrc. Qed.

Lemma cv2_resize_dangling (src : loc) (dsize : pyobj) (σ : world) :
  heap σ !! src = None →
  cv2_resize src dsize σ
  = (Raise CvError, World (self σ) (heap σ) (trace σ ++ [CvResize src dsize])).
Proof. intros Hsrc. by run_call Hsrc. Qed.

Lemma cv2_GaussianBlur_dangling
    (src : loc) (ksize : pyobj) (sigmaX : Q) (σ : world) :
  heap σ !! src = None →
  cv2_GaussianBlur src ksize sigmaX σ
  = (Raise CvError,
     World (self σ) (heap σ) (trace σ ++ [CvGaussianBlur src ksize sigmaX])).
Proof. intros Hsrc. by run_call Hsrc. Qed.

(** what the library calls leave behind when they raise *)
Lemma cv2_resize_raises
    (src : loc) (dsize : pyobj) (σ σ' : world) (e : exn) :
  cv2_resize src dsize σ = (Raise e, σ') →
  e = CvError ∧ heap σ' = heap σ ∧ self σ' = self σ.
Proof.
  intros Hrun. destruct (heap σ !! src) as [a|] eqn:Hsrc.
  - destruct (cv_resize a dsize) as [out|] eqn:Hout.
    + by erewrite cv2_resize_ok in Hrun by done.
    + erewrite cv2_resize_raise in Hrun by done. by injection Hrun as <- <-.
  - rewrite cv2_resize_dangling in Hrun by done. by injection Hrun as <- <-.
Qed.

Lemma cv2_GaussianBlur_raises
    (src : loc) (ksize : pyobj) (sigmaX : Q) (σ σ' : world) (e : exn) :
  cv2_GaussianBlur src ksize sigmaX σ = (Raise e, σ') →
  e = CvError ∧ heap σ' = heap σ ∧ self σ' = self σ.
Proof.
  intros Hrun. destruct (heap σ !! src) as [a|] eqn:Hsrc.
  - destruct (cv_GaussianBlur a ksize sigmaX) as [out|] eqn:Hout.
    + by erewrite cv2_GaussianBlur_ok in Hrun by done.
    + erewrite cv2_GaussianBlur_raise in Hrun by done. by injection Hrun as <- <-.
  - rewrite cv2_GaussianBlur_dangling in Hrun by done. by injection Hrun as <- <-.
Qed.

Lemma _apply_sepia_local_raises (image : loc) (σ σ' : world) (e : exn) :
  _apply_sepia_local image σ = (Raise e, σ') →
  e = CvError ∧ heap σ' = heap σ ∧ self σ' = self σ ∧ heap σ !! image = None.
Proof.
  intros Hrun. destruct (heap σ !! image) as [img|] eqn:Himg.
  - destruct (_apply_sepia_local_ok image img σ Himg) as [Hok _]. congruence.
  - unfold _apply_sepia_local in Hrun.
    erewrite bind_raise in Hrun by (by apply cv2_transform_dangling).
    by injection Hrun as <- <-.
Qed.

Lemma process_connected_raises
    (σ σ' : world) (image : loc) (operation : string)
    (kwargs : gmap string pyobj) (e : exn) :
  connected (self σ) = true →
  process_image_remote image operation kwargs σ = (Raise e, σ') →
  e = CvError.
Proof.
  intros Hc Hrun.
  destruct (decide (operation = "sepia")) as [->|Hs].
  { rewrite process_sepia in Hrun by done.
    by apply _apply_sepia_local_raises in Hrun as (-> & _). }
  destruct (decide (operation = "resize")) as [->|Hr].
  { rewrite process_resize in Hrun by done.
    by apply cv2_resize_raises in Hrun as (-> & _). }
  destruct (decide (operation = "blur")) as [->|Hb].
  { rewrite process_blur in Hrun by done.
    by apply cv2_GaussianBlur_raises in Hrun as (-> & _). }
  by rewrite process_other in Hrun.
Qed.

(** X4.  A call of [process_image_remote] that raises has allocated nothing and
    changed no array, and the delegate is as before.  The exception is the
    "Not connected" RuntimeError exactly when the delegate is not
    connected; on a connected delegate it is the library's, and for an
    array that exists it can only come from "resize" or "blur": "sepia" and
    unknown operations never raise. *)
Theorem process_raise
    (σ σ' : world) (image : loc) (operation : string)
    (kwargs : gmap string pyobj) (e : exn) :
  process_image_remote image operation kwargs σ = (Raise e, σ') →
  heap σ' = heap σ
  ∧ self σ' = self σ
  ∧ (e = not_connected ↔ connected (self σ) = false)
  ∧ (connected (self σ) = true → e = CvError)
  ∧ (connected (self σ) = true → is_Some (heap σ !! image) →
     operation = "resize" ∨ operation = "blur").
Proof.
  intros Hrun. destruct (connected (self σ)) eqn:Hc.
  2: { rewrite process_disconnected in Hrun by done. injection Hrun as <- <-.
       by repeat split. }
  assert (Hgoal : e = CvError ∧ heap σ' = heap σ ∧ self σ' = self σ
                  ∧ (is_Some (heap σ !! image) →
                     operation = "resize" ∨ operation = "blur")).
  { destruct (decide (operation = "sepia")) as [->|Hs].
    { rewrite process_sepia in Hrun by done.
      apply _apply_sepia_local_raises in Hrun as (-> & Hh & Hself & Hnone).
      repeat split; try done. simpl in Hnone. rewrite Hnone. by intros [? ?]. }
    destruct (decide (operation = "resize")) as [->|Hr].
    { rewrite process_resize in Hrun by done.
      apply cv2_resize_raises in Hrun as (-> & Hh & Hself).
      repeat split; try done. by left. }
    destruct (decide (operation = "blur")) as [->|Hb].
    { rewrite process_blur in Hrun by done.
      apply cv2_GaussianBlur_raises in Hrun as (-> & Hh & Hself).
      repeat split; try done. by right. }
    by rewrite process_other in Hrun. }
  destruct Hgoal as (-> & Hh & Hself & Hop).
  repeat split; try done.
Qed.

End Raising.

Lemma process_raise_witness :
  heap (@process_image_remote ref_cv2 1%positive "blur"
          {["kernel_size" := PyInt 4]} connected_world).2
  = heap connected_world.
Proof.
  apply (@process_raise ref_cv2 connected_world _ 1%positive "blur"
           {["kernel_size" := PyInt 4]} CvError).
  reflexivity.
Defined.

(** ** Sequences of calls *)

Section Calls_in_sequence.
Context `{Cv2}.

Lemma do_call_keeps (c : call) (σ : world) :
  endpoint (self (do_call c σ)) = endpoint (self σ)
  ∧ heap σ ⊆ heap (do_call c σ)
  ∧ trace σ `prefix_of` trace (do_call c σ).
Proof.
  destruct c as [| |image operation kwargs]; simpl.
  - repeat split; [done|]. by apply prefix_app_r.
  - repeat split; [done|]. by apply prefix_app_r.
  - destruct (framed_process_image_remote image operation kwargs σ) as (Hs & Hh & Ht).
    by rewrite Hs.
Qed.

Lemma do_calls_snoc (cs : list call) (c : call) (σ : world) :
  do_calls (cs ++ [c]) σ = do_call c (do_calls cs σ).
Proof. unfold do_calls. by rewrite foldl_snoc. Qed.

(** X2.  Whatever methods a client calls, in whatever order and with whatever
    outcomes, the endpoint stays the one the delegate was built with, every
    array that existed keeps its contents, and nothing already in the
    trace is lost. *)
Theorem calls_keep_endpoint_and_arrays (cs : list call) (σ : world) :
  endpoint (self (do_calls cs σ)) = endpoint (self σ)
  ∧ heap σ ⊆ heap (do_calls cs σ)
  ∧ trace σ `prefix_of` trace (do_calls cs σ)
  ∧ (∀ l a, heap σ !! l = Some a → heap (do_calls cs σ) !! l = Some a).
Proof.
  assert (Hkeep : endpoint (self (do_calls cs σ)) = endpoint (self σ)
                  ∧ heap σ ⊆ heap (do_calls cs σ)
                  ∧ trace σ `prefix_of` trace (do_calls cs σ)).
  { induction cs as [|c cs IH] using rev_ind; [done|].
    rewrite do_calls_snoc.
    destruct IH as (He & Hh & Ht).
    destruct (do_call_keeps c (do_calls cs σ)) as (He' & Hh' & Ht').
    split; [congruence|]. split; [by transitivity (heap (do_calls cs σ))|].
    by transitivity (trace (do_calls cs σ)). }
  destruct Hkeep as (He & Hh & Ht). repeat split; try done.
  intros l a Hl. by eapply lookup_weaken.
Qed.

Lemma do_call_connected (c : call) (σ : world) :
  connected (self (do_call c σ))
  = flag_after [c] (connected (self σ)).
Proof.
  destruct c as [| |image operation kwargs]; simpl; [done|done|].
  destruct (framed_process_image_remote image operation kwargs σ) as (Hs & _).
  by rewrite Hs.
Qed.

(** X3.  After any sequence of calls the flag is what the last [connect] or
    [disconnect] of the sequence set, and what it was at the start when the
    sequence has neither: calls of [process_image_remote], failed or not,
    never count.  So a further [process_image_remote] raises the "Not
    connected" error exactly when that last switch was a [disconnect]. *)
Theorem calls_connected_flag
    (cs : list call) (σ : world)
    (image : loc) (operation : string) (kwargs : gmap string pyobj) :
  connected (self (do_calls cs σ)) = flag_after cs (connected (self σ))
  ∧ ((process_image_remote image operation kwargs (do_calls cs σ)).1
     = Raise not_connected
     ↔ flag_after cs (connected (self σ)) = false).
Proof.
  assert (Hflag : connected (self (do_calls cs σ))
                  = flag_after cs (connected (self σ))).
  { induction cs as [|c cs IH] using rev_ind; [done|].
    rewrite do_calls_snoc, do_call_connected, IH.
    unfold flag_after. by rewrite foldl_snoc. }
  split; [done|]. rewrite <- Hflag. split.
  - intros Hrun.
    destruct (process_image_remote image operation kwargs (do_calls cs σ))
      as [r σ'] eqn:Hp.
    simpl in Hrun. subst r.
    destruct (connected (self (do_calls cs σ))) eqn:Hc; [|done].
    by pose proof (process_connected_raises _ _ _ _ _ _ Hc Hp).
  - intros Hc. by rewrite process_disconnected.
Qed.

End Calls_in_sequence.

(** ** The keyword arguments *)

Section Keywords.
Context `{Cv2}.

(** X6.  Only one keyword is ever read, and only by its own operation: "size"
    by "resize" and "kernel_size" by "blur".  Two keyword mappings that
    agree there give the same result and the same world; any other
    keyword, and every keyword of "sepia" or of an unknown operation, is
    ignored without complaint. *)
Theorem process_reads_one_keyword
    (σ : world) (image : loc) (operation : string)
    (kwargs1 kwargs2 : gmap string pyobj) :
  (operation = "resize" → kwargs1 !! "size" = kwargs2 !! "size") →
  (operation = "blur" → kwargs1 !! "kernel_size" = kwargs2 !! "kernel_size") →
  process_image_remote image operation kwargs1 σ
  = process_image_remote image operation kwargs2 σ.
Proof.
  intros Hsize Hks. destruct (connected (self σ)) eqn:Hc.
  2: { by rewrite !process_disconnected. }
  destruct (decide (operation = "sepia")) as [->|Hs].
  { by rewrite !process_sepia. }
  destruct (decide (operation = "resize")) as [->|Hr].
  { rewrite !process_resize by done. by rewrite Hsize. }
  destruct (decide (operation = "blur")) as [->|Hb].
  { rewrite !process_blur by done. by rewrite Hks. }
  by rewrite !process_other.
Qed.

Lemma cv2_resize_trace (src : loc) (dsize : pyobj) (σ : world) :
  trace (cv2_resize src dsize σ).2 = trace σ ++ [CvResize src dsize].
Proof.
  destruct (heap σ !! src) as [a|] eqn:Hsrc.
  - destruct (cv_resize a dsize) as [out|] eqn:Hout.
    + by erewrite cv2_resize_ok by done.
    + by erewrite cv2_resize_raise by done.
  - by rewrite cv2_resize_dangling.
Qed.

(** X7.  The default target (800, 600) stands in for a missing "size" key only.
    A "size" that is present is handed to [cv2.resize] as it is, whatever
    it is: [None], a string, a tuple of the wrong length or a pair with a
    zero go to the library unchecked. *)
Theorem resize_size_as_supplied
    (σ : world) (image : loc) (kwargs : gmap string pyobj) :
  connected (self σ) = true →
  (∀ v, kwargs !! "size" = Some v →
        trace (process_image_remote image "resize" kwargs σ).2
        = trace σ ++ [Print "Delegating resize operation to cloud agent...";
                      CvResize image v])
  ∧ (kwargs !! "size" = None →
     trace (process_image_remote image "resize" kwargs σ).2
     = trace σ ++ [Print "Delegating resize operation to cloud agent...";
                   CvResize image (PyTuple [PyInt 800; PyInt 600])]).
Proof.
  intros Hc. split.
  - intros v Hv. rewrite process_resize, cv2_resize_trace by done.
    rewrite Hv. simpl. by rewrite <- app_assoc.
  - intros Hv. rewrite process_resize, cv2_resize_trace by done.
    rewrite Hv. simpl. by rewrite <- app_assoc.
Qed.

End Keywords.

Lemma process_reads_one_keyword_witness :
  @process_image_remote ref_cv2 1%positive "sepia" ∅ connected_world
  = @process_image_remote ref_cv2 1%positive "sepia"
      {["size" := PyNone; "strength" := PyInt 3]} connected_world.
Proof.
  apply (@process_reads_one_keyword ref_cv2); discriminate.
Defined.

Lemma resize_size_as_supplied_witness :
  trace (@process_image_remote ref_cv2 1%positive "resize"
           {["size" := PyNone]} connected_world).2
  = trace connected_world
    ++ [Print "Delegating resize operation to cloud agent...";
        CvResize 1%positive PyNone].
Proof.
  destruct (@resize_size_as_supplied ref_cv2 connected_world 1%positive
              {["size" := PyNone]}) as [Hgiven _]; [reflexivity|].
  apply Hgiven, lookup_singleton_eq.
Defined.

(** ** More on the sepia pipeline *)

Section Pipeline.
Context `{Cv2}.

(** X8.  The sepia call makes its three library calls in the order of the
    source, each on the array the one before returned: [cv2.transform] on
    the input, [np.clip(_, 0, 255)] on the transform's output, the cast on
    the clip's.  The two intermediate arrays are new ones as well. *)
Theorem sepia_call_order
    (σ : world) (image : loc) (kwargs : gmap string pyobj) (img : ndarray) :
  connected (self σ) = true →
  heap σ !! image = Some img →
  ∃ l1 l2 l3 σ',
    process_image_remote image "sepia" kwargs σ = (Ok l3, σ')
    ∧ trace σ'
      = trace σ ++ [Print "Delegating sepia operation to cloud agent...";
                    CvTransform image kernel;
                    NpClip l1 0 255;
                    NpAstypeUint8 l2]
    ∧ heap σ' !! l1 = Some (image_map (cv_matvec kernel) img)
    ∧ heap σ' !! l2
      = Some (image_map (px_map (clip 0 255)) (image_map (cv_matvec kernel) img))
    ∧ heap σ !! l1 = None ∧ heap σ !! l2 = None ∧ heap σ !! l3 = None
    ∧ l1 ≠ l2 ∧ l2 ≠ l3 ∧ l1 ≠ l3.
Proof.
  intros Hc Himg.
  destruct (_apply_sepia_local_ok image img (delegating "sepia" σ) Himg) as [Hrun _].
  rewrite <- (process_sepia image kwargs σ Hc) in Hrun.
  set (a1 := image_map (cv_matvec kernel) img).
  set (a2 := image_map (px_map (clip 0 255)) a1).
  set (σ0 := delegating "sepia" σ).
  set (σ1 := after_call (CvTransform image kernel) a1 σ0).
  set (σ2 := after_call (NpClip (fresh (dom (heap σ0))) 0 255) a2 σ1).
  set (l1 := fresh (dom (heap σ0))).
  set (l2 := fresh (dom (heap σ1))).
  set (l3 := fresh (dom (heap σ2))).
  assert (H1 : heap σ1 !! l1 = Some a1) by apply after_call_result.
  assert (H2 : heap σ2 !! l2 = Some a2) by apply after_call_result.
  assert (H12 : heap σ2 !! l1 = Some a1) by by apply after_call_old.
  assert (F1 : heap σ !! l1 = None) by apply (alloc_fresh σ0).
  assert (F2 : heap σ1 !! l2 = None) by apply (alloc_fresh σ1).
  assert (F3 : heap σ2 !! l3 = None) by apply (alloc_fresh σ2).
  assert (S1 : heap σ ⊆ heap σ1) by apply (after_call_subseteq _ _ σ0).
  assert (S2 : heap σ1 ⊆ heap σ2) by apply after_call_subseteq.
  exists l1, l2, l3, (sepia_world image img σ0).
  split; [exact Hrun|]. split.
  { unfold sepia_world. simpl. by rewrite <- !app_assoc. }
  split.
  { unfold sepia_world. by apply after_call_old. }
  split.
  { unfold sepia_world. by apply after_call_old. }
  split; [done|]. split.
  { by eapply lookup_weaken_None. }
  split.
  { eapply lookup_weaken_None; [exact F3|]. by transitivity (heap σ1). }
  split; [|split].
  - intros Heq. rewrite Heq in H1. congruence.
  - intros Heq. rewrite Heq in H2. congruence.
  - intros Heq. rewrite Heq in H12. congruence.
Qed.

(** X9.  After the clip the cast to uint8 never changes a sample, so the result
    never wraps around.  When the library's transform already yields 8-bit
    samples, as it does for an 8-bit input, clip and cast change nothing
    at all: the sepia array is the output of [cv2.transform]. *)
Theorem sepia_clip_and_cast_redundant
    (σ : world) (image : loc) (kwargs : gmap string pyobj) (img : ndarray) :
  connected (self σ) = true →
  heap σ !! image = Some img →
  (∀ r p, u8 (cv_dot r p)) →
  (∀ x, astype_uint8 (clip 0 255 x) = clip 0 255 x)
  ∧ ∃ l σ',
      process_image_remote image "sepia" kwargs σ = (Ok l, σ')
      ∧ heap σ' !! l = Some (image_map (cv_matvec kernel) img).
Proof.
  intros Hc Himg Hu8. split.
  { intros x. apply astype_uint8_u8, clip_u8. }
  destruct (_apply_sepia_local_ok image img (delegating "sepia" σ) Himg) as [Hrun Hres].
  eexists _, _. split; [by rewrite process_sepia|].
  rewrite Hres. f_equal. unfold image_map.
  apply map_ext. intros r. apply map_ext. intros p.
  rewrite sepia_pixel_clip. unfold cv_matvec, kernel, px_map, clip. simpl.
  f_equal;
    match goal with |- context [cv_dot ?r p] =>
      pose proof (Hu8 r p) as Hb; unfold u8 in Hb; lia
    end.
Qed.

End Pipeline.

Lemma ref_dot_u8 (r : row) (p : pixel) : u8 (Ref.dot r p).
Proof.
  destruct r as [[a b] c]. unfold Ref.dot, Ref.saturate_uint8, u8. lia.
Qed.

Lemma sepia_call_order_witness :
  ∃ l1 l2 l3 σ',
    @process_image_remote ref_cv2 1%positive "sepia" ∅ connected_world = (Ok l3, σ')
    ∧ trace σ'
      = trace connected_world
        ++ [Print "Delegating sepia operation to cloud agent...";
            CvTransform 1%positive kernel;
            NpClip l1 0 255;
            NpAstypeUint8 l2].
Proof.
  destruct (@sepia_call_order ref_cv2 connected_world 1%positive ∅ demo_image)
    as (l1 & l2 & l3 & σ' & Hrun & Htr & _); [reflexivity|reflexivity|].
  by exists l1, l2, l3, σ'.
Defined.

Lemma sepia_clip_and_cast_redundant_witness :
  ∃ l σ',
    @process_image_remote ref_cv2 1%positive "sepia" ∅ connected_world = (Ok l, σ')
    ∧ heap σ' !! l = Some (image_map (@cv_matvec ref_cv2 kernel) demo_image).
Proof.
  apply (@sepia_clip_and_cast_redundant ref_cv2 connected_world 1%positive ∅ demo_image);
    [reflexivity|reflexivity|apply ref_dot_u8].
Defined.

(** ** The constructor *)

(** X1.  [__init__] never leaves the endpoint empty: [None] and the empty string
    both give "http://localhost:8000", and any other string is stored as
    it is. *)
Theorem init_endpoint (ep : option string) :
  endpoint (__init__ ep) ≠ EmptyString
  ∧ (ep = None ∨ ep = Some EmptyString → endpoint (__init__ ep) = default_endpoint)
  ∧ (∀ s, ep = Some s → s ≠ EmptyString → endpoint (__init__ ep) = s).
Proof.
  unfold __init__. cbn [endpoint]. split; [|split].
  - destruct ep as [s|]; [|done]. by destruct (decide (s = EmptyString)).
  - intros [-> | ->]; [done|]. by destruct (decide (EmptyString = EmptyString)).
  - intros s -> Hs. by destruct (decide (s = EmptyString)).
Qed.

(** ** Chaining calls *)

Section Chaining.
Context `{Cv2} `{!Cv2Laws}.

(** X11.  What the sepia call returns can be handed on: for a non-empty input of
    any sample range, its result is a non-empty 8-bit array, so [cv2.resize]
    to a positive size and [cv2.GaussianBlur] with an odd positive aperture
    accept it, and the input array is still untouched afterwards. *)
Theorem sepia_result_chains
    (σ : world) (image : loc) (kwargs : gmap string pyobj)
    (img : ndarray) (h w : nat) (W H' K : Z) :
  connected (self σ) = true →
  heap σ !! image = Some img →
  shape img h w → (0 < h)%nat → (0 < w)%nat →
  0 < W → 0 < H' → 0 < K → Z.odd K = true →
  ∃ l1 σ1,
    process_image_remote image "sepia" kwargs σ = (Ok l1, σ1)
    ∧ (∃ l2 σ2 out,
         process_image_remote l1 "resize"
           {["size" := PyTuple [PyInt W; PyInt H']]} σ1 = (Ok l2, σ2)
         ∧ heap σ2 !! l2 = Some out
         ∧ shape out (Z.to_nat H') (Z.to_nat W)
         ∧ heap σ2 !! image = Some img)
    ∧ (∃ l2 σ2 out,
         process_image_remote l1 "blur" {["kernel_size" := PyInt K]} σ1 = (Ok l2, σ2)
         ∧ heap σ2 !! l2 = Some out
         ∧ shape out h w
         ∧ heap σ2 !! image = Some img).
Proof.
  intros Hc Himg Hsh Hh Hw HW HH HK Hodd.
  destruct (_apply_sepia_local_ok image img (delegating "sepia" σ) Himg) as [Hrun Hres].
  rewrite <- (process_sepia image kwargs σ Hc) in Hrun.
  set (l1 := sepia_loc image img (delegating "sepia" σ)) in *.
  set (σ1 := sepia_world image img (delegating "sepia" σ)) in *.
  pose proof (framed_process_image_remote image "sepia" kwargs σ) as (Hs1 & Hh1 & _).
  rewrite Hrun in Hs1, Hh1. cbn [snd] in Hs1, Hh1.
  assert (Hc1 : connected (self σ1) = true) by by rewrite Hs1.
  assert (Himg1 : heap σ1 !! image = Some img) by by eapply lookup_weaken.
  assert (Hsh1 : shape (image_map sepia_pixel img) h w) by by apply shape_image_map.
  assert (Hu1 : u8_image (image_map sepia_pixel img))
    by apply u8_image_map, sepia_pixel_u8.
  exists l1, σ1. split; [exact Hrun|]. split.
  - destruct (process_resize_ok σ1 l1 {["size" := PyTuple [PyInt W; PyInt H']]}
                (image_map sepia_pixel img) h w W H')
      as (l2 & σ2 & out & Hrun2 & Hout & Hshape);
      try done; try (by rewrite lookup_singleton_eq).
    exists l2, σ2, out. split; [done|]. split; [done|]. split; [done|].
    pose proof (framed_process_image_remote l1 "resize"
                  {["size" := PyTuple [PyInt W; PyInt H']]} σ1) as (_ & Hh2 & _).
    rewrite Hrun2 in Hh2. eapply lookup_weaken; [exact Himg1|exact Hh2].
  - destruct (process_blur_ok σ1 l1 {["kernel_size" := PyInt K]}
                (image_map sepia_pixel img) h w K)
      as (l2 & σ2 & out & Hrun2 & Hout & Hshape);
      try done; try (by rewrite lookup_singleton_eq).
    exists l2, σ2, out. split; [done|]. split; [done|]. split; [done|].
    pose proof (framed_process_image_remote l1 "blur"
                  {["kernel_size" := PyInt K]} σ1) as (_ & Hh2 & _).
    rewrite Hrun2 in Hh2. eapply lookup_weaken; [exact Himg1|exact Hh2].
Qed.

End Chaining.

(** an array whose samples are not 8-bit *)
Definition wide_image : ndarray := [[Px 1000 (-5) 300]].

Definition wide_world : world :=
  (connect (World (__init__ None) {[1%positive := wide_image]} [])).2.

Lemma sepia_result_chains_witness :
  ∃ l1 σ1,
    @process_image_remote ref_cv2 1%positive "sepia" ∅ wide_world = (Ok l1, σ1)
    ∧ (∃ l2 σ2 out,
         @process_image_remote ref_cv2 l1 "resize"
           {["size" := PyTuple [PyInt 3; PyInt 2]]} σ1 = (Ok l2, σ2)
         ∧ heap σ2 !! l2 = Some out
         ∧ shape out 2 3
         ∧ heap σ2 !! 1%positive = Some wide_image)
    ∧ (∃ l2 σ2 out,
         @process_image_remote ref_cv2 l1 "blur" {["kernel_size" := PyInt 5]} σ1
         = (Ok l2, σ2)
         ∧ heap σ2 !! l2 = Some out
         ∧ shape out 1 1
         ∧ heap σ2 !! 1%positive = Some wide_image).
Proof.
  apply (@sepia_result_chains ref_cv2 ref_cv2_laws wide_world 1%positive ∅
           wide_image 1 1 3 2 5);
    try reflexivity; try lia.
  split; [reflexivity|]. by repeat constructor.
Defined.

(** ** The demo, whatever the library does *)

Section Demo_any.
Context `{Cv2}.

Lemma main_unfold (σ : world) :
  main σ
  = try_finally (main_body (fresh (dom (heap σ)))) disconnect (main_entry σ).
Proof.
  unfold main.
  erewrite bind_ok; [|reflexivity].
  erewrite bind_ok; [|apply fill_ok, lookup_insert_eq].
  erewrite bind_ok; [|reflexivity].
  erewrite bind_ok; [|reflexivity].
  unfold main_entry, main_body. cbn [self heap trace endpoint].
  by rewrite insert_insert_eq, image_map_full.
Qed.

Lemma framed_main_body (image : loc) : framed (main_body image).
Proof.
  unfold main_body.
  auto 20 using framed_process_image_remote with framed.
Qed.

(** X12.  [finally: delegate.disconnect()]: however the three calls of the demo
    end, with any implementation of the library, [main] leaves the delegate
    disconnected at the default endpoint, its last line on the console is
    "Disconnecting from cloud agent...", what it returns or raises is what
    the body of the [try] returned or raised, and no array that existed
    before has changed. *)
Theorem main_always_disconnects (σ : world) :
  self (main σ).2 = Delegate default_endpoint false
  ∧ last (stdout (trace (main σ).2)) = Some "Disconnecting from cloud agent..."
  ∧ (main σ).1 = (main_body (fresh (dom (heap σ))) (main_entry σ)).1
  ∧ heap σ ⊆ heap (main σ).2.
Proof.
  rewrite main_unfold. unfold try_finally.
  pose proof (framed_main_body (fresh (dom (heap σ))) (main_entry σ)) as (Hs & Hh & _).
  destruct (main_body (fresh (dom (heap σ))) (main_entry σ)) as [r σ2].
  simpl in *. rewrite Hs. simpl. split; [done|]. split.
  { rewrite stdout_app. simpl. apply last_snoc. }
  split; [done|].
  etransitivity; [|exact Hh]. apply insert_subseteq, alloc_fresh.
Qed.

End Demo_any.

(** ** The demo's console *)

Lemma returns_print_line (line : string) (σ : world) (Q : unit → world → Prop) :
  (∀ σ', extends σ σ' → stdout (trace σ') = stdout (trace σ) ++ [line] → Q () σ') →
  returns (print line) σ Q.
Proof.
  intros HQ. eexists _, _. split; [done|]. apply HQ.
  - apply (framed_emit _ σ).
  - simpl. by rewrite stdout_app.
Qed.

Section Demo_console.
Context `{Cv2} `{!Cv2Laws}.

Lemma returns_process_line
    (σ : world) (image : loc) (operation : string) (kwargs : gmap string pyobj)
    (Q : loc → world → Prop) :
  (∃ l σ', process_image_remote image operation kwargs σ = (Ok l, σ')) →
  connected (self σ) = true →
  (∀ l σ', extends σ σ' →
           stdout (trace σ')
           = stdout (trace σ)
             ++ ["Delegating " +:+ operation +:+ " operation to cloud agent..."] →
           Q l σ') →
  returns (process_image_remote image operation kwargs) σ Q.
Proof.
  intros (l & σ' & Hrun) Hc HQ. exists l, σ'. split; [done|].
  pose proof (framed_process_image_remote image operation kwargs σ) as Hf.
  pose proof (process_stdout_connected σ image operation kwargs Hc) as Hl.
  rewrite Hrun in Hf, Hl. by apply HQ.
Qed.

Lemma demo_sepia_ok (image : loc) (σ : world) :
  demo_inv image σ →
  ∃ l σ', process_image_remote image "sepia" ∅ σ = (Ok l, σ').
Proof.
  intros [Hs Hi].
  destruct (_apply_sepia_local_ok image _ (delegating "sepia" σ) Hi) as [Hrun _].
  eexists _, _. rewrite process_sepia by (by rewrite Hs). exact Hrun.
Qed.

Lemma demo_blur_ok (image : loc) (σ : world) :
  demo_inv image σ →
  ∃ l σ', process_image_remote image "blur" {["kernel_size" := PyInt 21]} σ
          = (Ok l, σ').
Proof.
  intros [Hs Hi].
  destruct (process_blur_ok σ image {["kernel_size" := PyInt 21]}
              (full 400 600 (Px 100 150 200)) 400 600 21)
    as (l & σ' & out & Hrun & _);
    try done; try lia; try (by rewrite Hs); try (by rewrite lookup_singleton_eq);
    try apply shape_full.
  - apply u8_image_full. repeat split; simpl; lia.
  - by eexists _, _.
Qed.

Lemma demo_resize_ok (image : loc) (σ : world) :
  demo_inv image σ →
  ∃ l σ', process_image_remote image "resize"
            {["size" := PyTuple [PyInt 300; PyInt 200]]} σ = (Ok l, σ').
Proof.
  intros [Hs Hi].
  destruct (process_resize_ok σ image {["size" := PyTuple [PyInt 300; PyInt 200]]}
              (full 400 600 (Px 100 150 200)) 400 600 300 200)
    as (l & σ' & out & Hrun & _);
    try done; try lia; try (by rewrite Hs); try (by rewrite lookup_singleton_eq);
    try apply shape_full.
  - apply u8_image_full. repeat split; simpl; lia.
  - by eexists _, _.
Qed.

Lemma main_body_lines (image : loc) (σ : world) :
  demo_inv image σ →
  returns (main_body image) σ
    (λ _ σ',
       stdout (trace σ')
       = stdout (trace σ)
         ++ ["Delegating sepia operation to cloud agent...";
             "✓ Sepia effect applied via cloud agent";
             "Delegating blur operation to cloud agent...";
             "✓ Blur applied via cloud agent";
             "Delegating resize operation to cloud agent...";
             "✓ Resize applied via cloud agent";
             String "010"%char "All operations delegated successfully!"]).
Proof.
  intros Hinv. unfold main_body.
  apply returns_bind, returns_process_line;
    [by apply demo_sepia_ok|by destruct Hinv as [-> _]|].
  intros _ σ1 E1 L1. apply returns_bind, returns_print_line. intros σ2 E2 L2.
  assert (I2 : demo_inv image σ2).
  { eapply demo_inv_extends; [|exact E2]. by eapply demo_inv_extends. }
  apply returns_bind, returns_process_line;
    [by apply demo_blur_ok|by destruct I2 as [-> _]|].
  intros _ σ3 E3 L3. apply returns_bind, returns_print_line. intros σ4 E4 L4.
  assert (I4 : demo_inv image σ4).
  { eapply demo_inv_extends; [|exact E4]. by eapply demo_inv_extends. }
  apply returns_bind, returns_process_line;
    [by apply demo_resize_ok|by destruct I4 as [-> _]|].
  intros _ σ5 E5 L5. apply returns_bind, returns_print_line. intros σ6 E6 L6.
  apply returns_print_line. intros σ7 E7 L7.
  rewrite L7, L6, L5, L4, L3, L2, L1. by rewrite <- !app_assoc.
Qed.

(** X13.  With a library that meets the shape contracts [main] returns without
    an exception and the console shows, after what was there, these nine
    lines in this order: the connect line with the default endpoint, then
    for sepia, blur and resize the dispatch line followed by its check
    mark, the closing line, and the disconnect line. *)
Theorem main_console (σ : world) :
  (main σ).1 = Ok ()
  ∧ stdout (trace (main σ).2)
    = stdout (trace σ)
      ++ ["Connecting to cloud agent at http://localhost:8000...";
          "Delegating sepia operation to cloud agent...";
          "✓ Sepia effect applied via cloud agent";
          "Delegating blur operation to cloud agent...";
          "✓ Blur applied via cloud agent";
          "Delegating resize operation to cloud agent...";
          "✓ Resize applied via cloud agent";
          String "010"%char "All operations delegated successfully!";
          "Disconnecting from cloud agent..."].
Proof.
  rewrite main_unfold. unfold try_finally.
  assert (Hinv : demo_inv (fresh (dom (heap σ))) (main_entry σ))
    by (split; [done|apply lookup_insert_eq]).
  destruct (main_body_lines _ _ Hinv) as ([] & σ2 & -> & Hlines).
  simpl. split; [done|].
  rewrite stdout_app, Hlines. unfold main_entry. simpl trace.
  rewrite stdout_app. simpl. by rewrite <- !app_assoc.
Qed.

End Demo_console.

Lemma main_console_witness :
  (@main ref_cv2 (World (__init__ None) ∅ [])).1 = Ok ().
Proof.
  apply (@main_console ref_cv2 ref_cv2_laws (World (__init__ None) ∅ [])).
Defined.
